(** * phiprof: the timer tree (src/timertree.cpp)

    A shallow embedding of [TimerTree] and of the part of [TimerData] it
    relies on, followed by the properties of the tree operations.

    Conventions.
    - Node ids are C++ [int]s and are kept as [Z]; [-1] is "no node".
    - [timers] is a [std::vector<TimerData>], here a [list TimerData] read with
      stdpp's lookup and written with stdpp's insert.  [timers[i]] with [i]
      outside the vector is undefined behaviour in C++; the embedding makes
      every such access explicit and answers [Fault].
    - Recursion and loops whose termination depends on the shape of the tree
      take a [fuel] argument and answer [OutOfFuel] when it runs out.
    - [double] values are kept abstract (class [Double]): the tree never
      inspects them, it only moves them around and adds them up.
    - The embedding follows the master thread: [#pragma omp master] and
      [#pragma omp barrier] are not modelled.
    - [DEBUG_PHIPROF_TIMERS] is taken as not defined. *)

From Stdlib Require Import ZArith String Ascii List.
From stdpp Require Import base tactics option list strings.

Local Open Scope string_scope.
Local Open Scope list_scope.
Local Open Scope Z_scope.

(** ** Results of operations that may fault or fail to return *)

Inductive result (A : Type) : Type :=
| Ok (a : A)
| Fault
| OutOfFuel.

Arguments Ok {A} a.
Arguments Fault {A}.
Arguments OutOfFuel {A}.

#[global] Instance result_ret : MRet result := fun A a => Ok a.

#[global] Instance result_bind : MBind result := fun A B f m =>
  match m with
  | Ok a => f a
  | Fault => Fault
  | OutOfFuel => OutOfFuel
  end.

(** ** What the tree takes from its collaborators *)

(** Arithmetic on [double].  No law is assumed: floating-point addition is
    not associative, and no proof below needs it to be. *)
Class Double := {
  double : Type;
  d0 : double;
  dadd : double -> double -> double;
  dsub : double -> double -> double;
  ddiv : double -> double -> double;
  d_of_nat : nat -> double;
  d_truthy : double -> bool
}.

(** The string hash behind [TimerData::getHash]. *)
Class NodeHash := {
  node_hash : string -> list string -> string -> Z
}.

Definition INT_MAX : Z := 2147483647.
Definition ULONG_MOD : Z := 2 ^ 64.

Definition backslash : string := String (ascii_of_nat 92) EmptyString.

Section Model.
Context {dbl : Double} {nh : NodeHash}.

(** ** TimerData *)

(** Modelled from the spec: the fields of a node (timerdata.hpp is not among
    the sources).  The accessors [getParentId], [getLabel], [getGroups] and
    [getChildIds] that timertree.cpp calls read [parent_id], [label],
    [groups] and [child_ids]. *)
Record TimerData := {
  parent_id : Z;
  id : Z;
  label : string;
  groups : list string;
  work_unit_label : string;
  child_ids : list Z;
  active : bool;
  start_time : double;
  total_time : double;
  call_count : nat
}.

(** Modelled from the spec: the constructor [TimerData(parent, id, label,
    groups, workUnitLabel)], which timertree.cpp calls but does not define.
    A new node is inactive with no accumulated time; with a parent it takes
    the parent's id as [parent_id] and appends itself to the parent's
    [child_ids]; with [NULL] its [parent_id] is [-1].  The second component
    is the parent as the constructor leaves it. *)
Definition TimerData_new (parent : option TimerData) (new_id : Z)
    (lbl : string) (grps : list string) (wul : string)
  : TimerData * option TimerData :=
  let node p := {| parent_id := p; id := new_id; label := lbl; groups := grps;
                   work_unit_label := wul; child_ids := [];
                   active := false; start_time := d0; total_time := d0;
                   call_count := 0 |} in
  match parent with
  | Some p =>
      (node (id p),
       Some {| parent_id := parent_id p; id := id p; label := label p;
               groups := groups p; work_unit_label := work_unit_label p;
               child_ids := child_ids p ++ [new_id];
               active := active p; start_time := start_time p;
               total_time := total_time p; call_count := call_count p |})
  | None => (node (-1), None)
  end.

(** Modelled from the spec: [TimerData::start()] marks the node active,
    captures the clock reading [now], increments the call count and returns
    the node's own id. *)
Definition TimerData_start (now : double) (n : TimerData) : TimerData * Z :=
  ({| parent_id := parent_id n; id := id n; label := label n;
      groups := groups n; work_unit_label := work_unit_label n;
      child_ids := child_ids n;
      active := true; start_time := now; total_time := total_time n;
      call_count := S (call_count n) |},
   id n).

(** Modelled from the spec: [TimerData::stop()] marks the node inactive, adds
    [now - start_time] to [total_time] and returns [parent_id].  On a node
    that is not active it reports the inconsistency (on the error stream,
    not modelled) and leaves the timing state alone; it still returns
    [parent_id]. *)
Definition TimerData_stop (now : double) (n : TimerData) : TimerData * Z :=
  if active n then
    ({| parent_id := parent_id n; id := id n; label := label n;
        groups := groups n; work_unit_label := work_unit_label n;
        child_ids := child_ids n;
        active := false; start_time := start_time n;
        total_time := dadd (total_time n) (dsub now (start_time n));
        call_count := call_count n |},
     parent_id n)
  else (n, parent_id n).

(** Modelled from the spec: [TimerData::getAverageTime()] is
    [total_time / max(call_count, 1)]. *)
Definition TimerData_getAverageTime (n : TimerData) : double :=
  ddiv (total_time n) (d_of_nat (Nat.max (call_count n) 1)).

(** Modelled from the spec: [TimerData::getHash()] is a deterministic
    combination of the label, the groups in order and the work-unit label.
    The combination itself is the collaborator's ([node_hash]). *)
Definition TimerData_getHash (n : TimerData) : Z :=
  node_hash (label n) (groups n) (work_unit_label n).

(** Modelled from the spec: [TimerData::resetTime(resetWallTime)] zeroes the
    accumulated time and, when [resetWallTime] is truthy, moves the start
    marker of an active node to it; the call count is kept. *)
Definition TimerData_resetTime (resetWallTime : double) (n : TimerData)
  : TimerData :=
  {| parent_id := parent_id n; id := id n; label := label n;
     groups := groups n; work_unit_label := work_unit_label n;
     child_ids := child_ids n;
     active := active n;
     start_time := if active n && d_truthy resetWallTime
                   then resetWallTime else start_time n;
     total_time := d0;
     call_count := call_count n |}.

(** Modelled from the spec: [TimerData::shiftActiveStartTime(shiftTime)]
    pushes the start time of an active node forward by [shiftTime]. *)
Definition TimerData_shiftActiveStartTime (shiftTime : double) (n : TimerData)
  : TimerData :=
  {| parent_id := parent_id n; id := id n; label := label n;
     groups := groups n; work_unit_label := work_unit_label n;
     child_ids := child_ids n;
     active := active n;
     start_time := if active n then dadd (start_time n) shiftTime
                   else start_time n;
     total_time := total_time n;
     call_count := call_count n |}.

(** ** TimerTree *)

Record TimerTree := {
  timers : list TimerData;
  currentId : Z
}.

(** [timers[i]] as an rvalue. *)
Definition node_at (ts : list TimerData) (i : Z) : result TimerData :=
  if decide (0 <= i) then
    match ts !! Z.to_nat i with
    | Some n => Ok n
    | None => Fault
    end
  else Fault.

(** [timers[i].f()] for a member function [f] that mutates the node and
    returns a value. *)
Definition call_at {R} (f : TimerData -> TimerData * R) (i : Z)
    (ts : list TimerData) : result (list TimerData * R) :=
  n ← node_at ts i;
  Ok (<[Z.to_nat i := (f n).1]> ts, (f n).2).

(** [TimerTree::TimerTree()], lines 13-22.  The value returned by
    [timers[0].start()] is dropped. *)
Definition TimerTree_new (now : double) : TimerTree :=
  let group := [] ++ ["Total"] in
  let currentId0 := -1 in
  let timers0 : list TimerData := [] in
  let timers1 := timers0 ++ [(TimerData_new None 0 "total" group "").1] in
  {| timers := alter (fun n => (TimerData_start now n).1) 0%nat timers1;
     currentId := currentId0 |}.

(** A loop [for (auto &x : xs) { ... }] that threads a value and may fault. *)
Fixpoint for_each {A B} (body : B -> A -> result B) (xs : list A) (acc : B)
  : result B :=
  match xs with
  | [] => Ok acc
  | x :: xs' => acc' ← body acc x; for_each body xs' acc'
  end.

(** The loop of [getChildId], lines 131-135: the first child whose label is
    [lbl], or [-1]. *)
Fixpoint find_child (ts : list TimerData) (lbl : string) (cs : list Z)
  : result Z :=
  match cs with
  | [] => Ok (-1)
  | childId :: cs' =>
      c ← node_at ts childId;
      if String.eqb (label c) lbl then Ok childId else find_child ts lbl cs'
  end.

(** [TimerTree::getChildId], lines 129-138. *)
Definition getChildId (lbl : string) (t : TimerTree) : result Z :=
  cur ← node_at (timers t) (currentId t);
  find_child (timers t) lbl (child_ids cur).

(** [TimerTree::initializeTimer], lines 27-44.  [timers.size()] is stored in
    an [int]: the embedding stops ([Fault]) where that conversion would no
    longer keep the value. *)
Definition initializeTimer (lbl : string) (grps : list string)
    (workUnit : string) (t : TimerTree) : result (Z * TimerTree) :=
  found ← getChildId lbl t;
  if decide (found < 0) then
    let new_id := Z.of_nat (length (timers t)) in
    if decide (INT_MAX < new_id) then Fault else
    cur ← node_at (timers t) (currentId t);
    match TimerData_new (Some cur) new_id lbl grps workUnit with
    | (n, Some cur') =>
        Ok (new_id,
            {| timers := <[Z.to_nat (currentId t) := cur']> (timers t) ++ [n];
               currentId := currentId t |})
    | (_, None) => Fault
    end
  else Ok (found, t).

(** [TimerTree::start(int id)], lines 47-53. *)
Definition start_id (now : double) (i : Z) (t : TimerTree)
  : result (bool * TimerTree) :=
  '(ts, ret) ← call_at (TimerData_start now) i (timers t);
  Ok (bool_decide (ret = i), {| timers := ts; currentId := ret |}).

(** [TimerTree::start(const std::string &label)], lines 56-61.  The [int]
    returned by [TimerData::start] is converted to [bool]. *)
Definition start_label (now : double) (lbl : string) (t : TimerTree)
  : result (bool * TimerTree) :=
  '(i, t1) ← initializeTimer lbl [] "" t;
  '(ts, ret) ← call_at (TimerData_start now) i (timers t1);
  Ok (negb (bool_decide (ret = 0)), {| timers := ts; currentId := i |}).

(** [TimerTree::stop(const int id)], lines 65-77. *)
Definition stop_id (now : double) (i : Z) (t : TimerTree)
  : result (bool * TimerTree) :=
  '(ts, ret) ← call_at (TimerData_stop now) (currentId t) (timers t);
  Ok (true, {| timers := ts; currentId := ret |}).

(** [TimerTree::stop(int id, double workUnits)], lines 80-92.  The call
    [stop(currentId, workUnits)] in its body has an [int] and a [double]
    argument, so it is a call of this same overload; its [bool] result is
    stored in [currentId]. *)
Fixpoint stop_id_work (fuel : nat) (i : Z) (workUnits : double)
    (t : TimerTree) : result (bool * TimerTree) :=
  match fuel with
  | O => OutOfFuel
  | S fuel' =>
      '(r, t') ← stop_id_work fuel' (currentId t) workUnits t;
      Ok (true, {| timers := timers t'; currentId := Z.b2z r |})
  end.

(** [TimerTree::stop(int id, double workUnits, const std::string
    &workUnitLabel)], lines 94-107: again a call of itself. *)
Fixpoint stop_id_work_label (fuel : nat) (i : Z) (workUnits : double)
    (workUnitLabel : string) (t : TimerTree) : result (bool * TimerTree) :=
  match fuel with
  | O => OutOfFuel
  | S fuel' =>
      '(r, t') ← stop_id_work_label fuel' (currentId t) workUnits
                   workUnitLabel t;
      Ok (true, {| timers := timers t'; currentId := Z.b2z r |})
  end.

(** [TimerTree::stop(const std::string &label)], lines 110-114. *)
Definition stop_label (now : double) (lbl : string) (t : TimerTree)
  : result (bool * TimerTree) :=
  '(ts, ret) ← call_at (TimerData_stop now) (currentId t) (timers t);
  Ok (true, {| timers := ts; currentId := ret |}).

(** [TimerTree::stop(const std::string &label, const double workUnits,
    const std::string &workUnitLabel)], lines 118-124: calls the
    three-argument overload by id. *)
Definition stop_label_work (fuel : nat) (lbl : string) (workUnits : double)
    (workUnitLabel : string) (t : TimerTree) : result (bool * TimerTree) :=
  '(r, t') ← stop_id_work_label fuel (currentId t) workUnits workUnitLabel t;
  Ok (true, {| timers := timers t'; currentId := Z.b2z r |}).

(** [TimerTree::getTime], lines 143-145. *)
Definition getTime (i : Z) (t : TimerTree) : result double :=
  n ← node_at (timers t) i;
  Ok (TimerData_getAverageTime n).

(** [TimerTree::getGroupTime], lines 149-163.  The first loop returns as soon
    as one of the node's groups equals [group]. *)
Fixpoint getGroupTime (fuel : nat) (group : string) (i : Z) (t : TimerTree)
  : result double :=
  match fuel with
  | O => OutOfFuel
  | S fuel' =>
      n ← node_at (timers t) i;
      if existsb (String.eqb group) (groups n)
      then Ok (TimerData_getAverageTime n)
      else for_each
             (fun groupTime childId =>
                g ← getGroupTime fuel' group childId t;
                Ok (dadd groupTime g))
             (child_ids n) d0
  end.

(** [TimerTree::getHash], lines 167-182.  [hashValue] is an
    [unsigned long]: sums wrap at [2^64]. *)
Definition getHash (i : Z) (t : TimerTree) : result Z :=
  n ← node_at (timers t) i;
  hashValue ← for_each
    (fun hashValue childId =>
       c ← node_at (timers t) childId;
       Ok ((hashValue + TimerData_getHash c) mod ULONG_MOD))
    (child_ids n) (TimerData_getHash n mod ULONG_MOD);
  if decide (hashValue = 0) then Ok 1 else Ok (hashValue mod INT_MAX).

(** The [while (id > 0)] loop of [getFullLabel], lines 189-192. *)
Fixpoint collect_labels (fuel : nat) (ts : list TimerData) (i : Z)
    (labels : list string) : result (list string) :=
  if decide (i > 0) then
    match fuel with
    | O => OutOfFuel
    | S fuel' =>
        n ← node_at ts i;
        collect_labels fuel' ts (parent_id n) (labels ++ [label n])
    end
  else Ok labels.

(** [TimerTree::getFullLabel], lines 186-209. *)
Definition getFullLabel (fuel : nat) (i : Z) (reverse : bool) (t : TimerTree)
  : result string :=
  labels ← collect_labels fuel (timers t) i [];
  if reverse then
    Ok (fold_left (fun fullLabel l => String.append (String.append fullLabel l) backslash)
                  labels "")
  else
    Ok (fold_left (fun fullLabel l => String.append (String.append fullLabel "/") l)
                  (rev labels) "").

(** [timers[i].f(...)] for a [void] member function, one node. *)
Definition update_at (f : TimerData -> TimerData) (ts : list TimerData)
    (i : Z) : result (list TimerData) :=
  n ← node_at ts i;
  Ok (<[Z.to_nat i := f n]> ts).

(** The shared shape of [resetTime] and [shiftActiveStartTime]: the node,
    then each id in its [child_ids]. *)
Definition node_and_children (f : TimerData -> TimerData) (i : Z)
    (t : TimerTree) : result TimerTree :=
  ts1 ← update_at f (timers t) i;
  n ← node_at ts1 i;
  ts2 ← for_each (update_at f) (child_ids n) ts1;
  Ok {| timers := ts2; currentId := currentId t |}.

(** [TimerTree::resetTime], lines 212-217. *)
Definition resetTime (resetWallTime : double) (i : Z) (t : TimerTree)
  : result TimerTree :=
  node_and_children (TimerData_resetTime resetWallTime) i t.

(** [TimerTree::shiftActiveStartTime], lines 220-225. *)
Definition shiftActiveStartTime (shiftTime : double) (i : Z) (t : TimerTree)
  : result TimerTree :=
  node_and_children (TimerData_shiftActiveStartTime shiftTime) i t.

(** ** Calls and reachable states *)

(** The mutating public operations of the tree. *)
Inductive op :=
| InitializeTimer (lbl : string) (grps : list string) (workUnit : string)
| StartId (i : Z)
| StartLabel (lbl : string)
| StopId (i : Z)
| StopIdWork (i : Z) (workUnits : double)
| StopIdWorkLabel (i : Z) (workUnits : double) (workUnitLabel : string)
| StopLabel (lbl : string)
| StopLabelWork (lbl : string) (workUnits : double) (workUnitLabel : string)
| ResetTime (resetWallTime : double) (i : Z)
| ShiftActiveStartTime (shiftTime : double) (i : Z).

(** One call, made when the clock reads [now]; the value the call returns
    is dropped. *)
Definition exec (fuel : nat) (now : double) (o : op) (t : TimerTree)
  : result TimerTree :=
  match o with
  | InitializeTimer lbl grps workUnit =>
      r ← initializeTimer lbl grps workUnit t; Ok r.2
  | StartId i => r ← start_id now i t; Ok r.2
  | StartLabel lbl => r ← start_label now lbl t; Ok r.2
  | StopId i => r ← stop_id now i t; Ok r.2
  | StopIdWork i w => r ← stop_id_work fuel i w t; Ok r.2
  | StopIdWorkLabel i w wl => r ← stop_id_work_label fuel i w wl t; Ok r.2
  | StopLabel lbl => r ← stop_label now lbl t; Ok r.2
  | StopLabelWork lbl w wl => r ← stop_label_work fuel lbl w wl t; Ok r.2
  | ResetTime rw i => resetTime rw i t
  | ShiftActiveStartTime sh i => shiftActiveStartTime sh i t
  end.

(** A sequence of calls, each with its clock reading. *)
Fixpoint run (fuel : nat) (cs : list (double * op)) (t : TimerTree)
  : result TimerTree :=
  match cs with
  | [] => Ok t
  | (now, o) :: cs' => t' ← exec fuel now o t; run fuel cs' t'
  end.

(** The states a program can bring a tree into: the constructor, then calls
    that return. *)
Inductive reachable : TimerTree -> Prop :=
| reachable_new now : reachable (TimerTree_new now)
| reachable_exec fuel now o t t' :
    reachable t -> exec fuel now o t = Ok t' -> reachable t'.

(** What "stop the node at [currentId] and move the cursor to its parent"
    is, for a tree whose cursor names node [n]. *)
Definition stopped_at_cursor (now : double) (n : TimerData) (t : TimerTree)
  : TimerTree :=
  {| timers := <[Z.to_nat (currentId t) := (TimerData_stop now n).1]> (timers t);
     currentId := parent_id n |}.

(** ** The structural part of a node, and what leaves it alone *)

(** Everything in a node but its timing state. *)
Definition shape (n : TimerData)
  : Z * Z * string * list string * string * list Z :=
  (parent_id n, id n, label n, groups n, work_unit_label n, child_ids n).

(** What identifies a node: the fields fixed at creation. *)
Definition identity (n : TimerData) : Z * Z * string * list string * string :=
  (id n, parent_id n, label n, groups n, work_unit_label n).

(** The parent as the constructor of a child with id [i] leaves it. *)
Definition with_child (p : TimerData) (i : Z) : TimerData :=
  {| parent_id := parent_id p; id := id p; label := label p;
     groups := groups p; work_unit_label := work_unit_label p;
     child_ids := child_ids p ++ [i];
     active := active p; start_time := start_time p;
     total_time := total_time p; call_count := call_count p |}.

(** A node as its constructor makes it under parent [p]. *)
Definition fresh_node (p : TimerData) (i : Z) (lbl : string)
    (grps : list string) (wul : string) : TimerData :=
  {| parent_id := id p; id := i; label := lbl; groups := grps;
     work_unit_label := wul; child_ids := [];
     active := false; start_time := d0; total_time := d0; call_count := 0 |}.

(** The state after [initializeTimer] created node [i] under [cur]. *)
Definition with_new_child (t : TimerTree) (cur : TimerData) (i : Z)
    (lbl : string) (grps : list string) (wul : string) : TimerTree :=
  {| timers := <[Z.to_nat (currentId t) := with_child cur i]> (timers t)
               ++ [fresh_node cur i lbl grps wul];
     currentId := currentId t |}.

(** ** The invariant of reachable trees *)

(** Every node sits at the index that is its id, and its parent id is
    smaller ([-1] for none); every id in its [child_ids] is larger than its
    own, names a node of the tree, and that node has it as parent; no id is
    twice in [child_ids]. *)
Definition nodes_ok (ts : list TimerData) : Prop :=
  forall (k : nat) (n : TimerData), ts !! k = Some n ->
    id n = Z.of_nat k
    /\ -1 <= parent_id n < Z.of_nat k
    /\ (forall c, c ∈ child_ids n ->
          Z.of_nat k < c
          /\ exists m, ts !! Z.to_nat c = Some m /\ parent_id m = Z.of_nat k)
    /\ NoDup (child_ids n).

Definition identity_of_shape
    (s : Z * Z * string * list string * string * list Z)
  : Z * Z * string * list string * string :=
  let '(p, i, l, g, w, _) := s in (i, p, l, g, w).

(** ** Nested start/stop sequences *)

Definition is_start (o : op) : bool :=
  match o with
  | StartId _ | StartLabel _ => true
  | _ => false
  end.

Definition is_stop (o : op) : bool :=
  match o with
  | StopId _ | StopIdWork _ _ | StopIdWorkLabel _ _ _
  | StopLabel _ | StopLabelWork _ _ _ => true
  | _ => false
  end.

(** The stop call [o] names timer [x]: by its id, or by its label. *)
Definition stop_targets (o : op) (x : Z) (t : TimerTree) : bool :=
  match o with
  | StopId i | StopIdWork i _ | StopIdWorkLabel i _ _ => bool_decide (i = x)
  | StopLabel l | StopLabelWork l _ _ =>
      match node_at (timers t) x with
      | Ok n => String.eqb (label n) l
      | _ => false
      end
  | _ => false
  end.

(** A sequence of start and stop calls, run from [t] with the timers in
    [opened] started and not yet stopped (most recent first), is balanced
    and strictly LIFO-nested: every call returns, every stop names the most
    recently started timer that is not yet stopped, and nothing is left
    open at the end.  [start_ok] is a further condition on each start. *)
Fixpoint lifo_nested_with (start_ok : op -> TimerTree -> bool) (fuel : nat)
    (cs : list (double * op)) (opened : list Z) (t : TimerTree) : bool :=
  match cs with
  | [] => match opened with [] => true | _ => false end
  | (now, o) :: cs' =>
      match exec fuel now o t with
      | Ok t' =>
          if is_start o then
            start_ok o t
            && lifo_nested_with start_ok fuel cs' (currentId t' :: opened) t'
          else
            match opened with
            | x :: opened' =>
                is_stop o && stop_targets o x t
                && lifo_nested_with start_ok fuel cs' opened' t'
            | [] => false
            end
      | _ => false
      end
  end.

(** Balanced and strictly LIFO-nested, nothing more asked of the starts. *)
Definition lifo_nested : nat -> list (double * op) -> list Z -> TimerTree
                         -> bool :=
  lifo_nested_with (fun _ _ => true).

(** [start(id)] names a direct child of the node at the cursor;
    [start(label)] always does. *)
Definition starts_child (o : op) (t : TimerTree) : bool :=
  match o with
  | StartId i =>
      match node_at (timers t) (currentId t) with
      | Ok cur => bool_decide (i ∈ child_ids cur)
      | _ => false
      end
  | _ => true
  end.

(** Balanced, strictly LIFO-nested, and every start is the start of a
    direct child of the timer that is current at the call. *)
Definition lifo_nested_children : nat -> list (double * op) -> list Z
                                  -> TimerTree -> bool :=
  lifo_nested_with starts_child.

(** The timers in [opened] form a parent chain that ends in [c0]. *)
Fixpoint linked (t : TimerTree) (opened : list Z) (c0 : Z) : Prop :=
  match opened with
  | [] => True
  | x :: rest =>
      0 <= x
      /\ (exists n, timers t !! Z.to_nat x = Some n
                    /\ parent_id n = hd c0 rest)
      /\ linked t rest c0
  end.

(** The timers in [opened] are nodes of the tree and are active. *)
Definition all_active (t : TimerTree) (opened : list Z) : Prop :=
  Forall (fun x => 0 <= x /\ exists n, timers t !! Z.to_nat x = Some n
                                       /\ active n = true) opened.

(** Every stop of the sequence finds the node at the cursor active, so that
    [TimerData::stop] is never asked to stop a timer that is not running. *)
Fixpoint stops_hit_active (fuel : nat) (cs : list (double * op))
    (t : TimerTree) : bool :=
  match cs with
  | [] => true
  | (now, o) :: cs' =>
      (if is_stop o then
         match node_at (timers t) (currentId t) with
         | Ok n => active n
         | _ => false
         end
       else true)
      && match exec fuel now o t with
         | Ok t' => stops_hit_active fuel cs' t'
         | _ => false
         end
  end.

(** ** Nested sequences, without presuming that calls return *)

(** The stop overloads that take work units. *)
Definition takes_work_units (o : op) : bool :=
  match o with
  | StopIdWork _ _ | StopIdWorkLabel _ _ _ | StopLabelWork _ _ _ => true
  | _ => false
  end.

(** No call of the sequence is a stop with work units. *)
Definition without_work_units (cs : list (double * op)) : bool :=
  forallb (fun c => negb (takes_work_units c.2)) cs.

(** The sequence of start and stop calls is balanced and strictly
    LIFO-nested, as far as it runs from [t] with the timers in [opened]
    started and not yet stopped (most recent first): every stop names the
    most recently started timer that is not yet stopped, every start
    satisfies [start_ok], and a sequence that runs to its end leaves nothing
    open.  Each condition is on the call and the state it is made in;
    nothing here says that a call returns, and nothing is asked of the calls
    after one that does not. *)
Fixpoint nested_calls_with (start_ok : op -> TimerTree -> bool) (fuel : nat)
    (cs : list (double * op)) (opened : list Z) (t : TimerTree) : bool :=
  match cs with
  | [] => match opened with [] => true | _ => false end
  | (now, o) :: cs' =>
      if is_start o then
        start_ok o t
        && match exec fuel now o t with
           | Ok t' =>
               nested_calls_with start_ok fuel cs' (currentId t' :: opened) t'
           | _ => true
           end
      else
        match opened with
        | x :: opened' =>
            is_stop o && stop_targets o x t
            && match exec fuel now o t with
               | Ok t' => nested_calls_with start_ok fuel cs' opened' t'
               | _ => true
               end
        | [] => false
        end
  end.

(** Balanced and strictly LIFO-nested, nothing more asked of the starts. *)
Definition nested_calls : nat -> list (double * op) -> list Z -> TimerTree
                          -> bool :=
  nested_calls_with (fun _ _ => true).

(** Balanced, strictly LIFO-nested, and every [start(id)] names a direct
    child of the timer that is current at the call. *)
Definition nested_child_calls : nat -> list (double * op) -> list Z
                                -> TimerTree -> bool :=
  nested_calls_with starts_child.

(** ** Further notions used to state properties *)

(** The calls that may append a node. *)
Definition creates (o : op) : bool :=
  match o with
  | InitializeTimer _ _ _ | StartLabel _ => true
  | _ => false
  end.

(** No two children of one node carry the same label. *)
Definition labels_ok (ts : list TimerData) : Prop :=
  forall (k : nat) (n m1 m2 : TimerData) (c1 c2 : Z),
    ts !! k = Some n ->
    c1 ∈ child_ids n -> c2 ∈ child_ids n ->
    ts !! Z.to_nat c1 = Some m1 -> ts !! Z.to_nat c2 = Some m2 ->
    label m1 = label m2 -> c1 = c2.

(** The two renderings of [getFullLabel], lines 194-208, on the labels the
    walk collected (innermost first). *)
Definition render_reverse (labels : list string) : string :=
  fold_left (fun fullLabel l =>
               String.append (String.append fullLabel l) backslash)
            labels "".

Definition render_forward (labels : list string) : string :=
  fold_left (fun fullLabel l =>
               String.append (String.append fullLabel "/") l)
            (rev labels) "".

(** The timing state of a node. *)
Definition timing (n : TimerData) : bool * double * double * nat :=
  (active n, start_time n, total_time n, call_count n).

(** Every node but the one at index 0 has a parent in the tree, and the
    parent lists it among its children. *)
Definition parents_ok (ts : list TimerData) : Prop :=
  forall (k : nat) (m : TimerData),
    ts !! k = Some m -> k <> 0%nat ->
    0 <= parent_id m
    /\ exists p, ts !! Z.to_nat (parent_id m) = Some p
                 /\ Z.of_nat k ∈ child_ids p.

End Model.

(** * Concrete trees *)

(** An instance for evaluation: the clock counts integer ticks. *)
Definition ticks : Double := {|
  double := Z;
  d0 := 0;
  dadd := Z.add;
  dsub := Z.sub;
  ddiv := Z.div;
  d_of_nat := Z.of_nat;
  d_truthy := fun x => negb (Z.eqb x 0)
|}.

(** An instance for evaluation: a polynomial string hash (seed 5381,
    multiplier 33, in 64 bits), summed over the label, the work-unit label
    and the groups in order. *)
Fixpoint poly_hash (h : Z) (s : string) : Z :=
  match s with
  | EmptyString => h
  | String c s' => poly_hash ((h * 33 + Z.of_nat (nat_of_ascii c)) mod ULONG_MOD) s'
  end.

Definition poly : NodeHash := {|
  node_hash := fun l gs w =>
    fold_left (fun acc g => (acc + poly_hash 5381 g) mod ULONG_MOD) gs
              ((poly_hash 5381 l + poly_hash 5381 w) mod ULONG_MOD)
|}.

Section Examples.
#[local] Existing Instance ticks.
#[local] Existing Instance poly.

(** The tree as the constructor leaves it, at tick 0. *)
Definition tree_new : @TimerTree ticks := @TimerTree_new ticks 0.

Definition or_new (r : result TimerTree) : TimerTree :=
  match r with Ok t => t | _ => tree_new end.

(** construct; start(0) *)
Definition calls_root : list (double * op) := [(1, StartId 0)].
Definition tree_root : TimerTree :=
  Eval vm_compute in or_new (run 0 calls_root tree_new).

(** construct; start(0); start("A"); start("B"); stop(2); stop(1) *)
Definition calls_AB : list (double * op) :=
  [(1, StartId 0); (2, StartLabel "A"); (3, StartLabel "B");
   (5, StopId 2); (9, StopId 1)].
Definition tree_AB : TimerTree :=
  Eval vm_compute in or_new (run 0 calls_AB tree_new).

(** The same chain with both A and B in group "G", A with a second child C
    outside the group. *)
Definition calls_groups : list (double * op) :=
  [(1, StartId 0);
   (2, InitializeTimer "A" ["G"] ""); (2, StartId 1);
   (3, InitializeTimer "B" ["G"] ""); (3, StartId 2); (5, StopId 2);
   (6, InitializeTimer "C" [] ""); (6, StartId 3); (8, StopId 3);
   (9, StopId 1)].
Definition tree_groups : TimerTree :=
  Eval vm_compute in or_new (run 0 calls_groups tree_new).

(** construct; start(0); start("glialfa") *)
Definition calls_zero_hash : list (double * op) :=
  [(1, StartId 0); (2, StartLabel "glialfa")].
Definition tree_zero_hash : TimerTree :=
  Eval vm_compute in or_new (run 0 calls_zero_hash tree_new).

(** A nested sequence that starts B a second time, by id, under A. *)
Definition calls_nested : list (double * op) :=
  [(2, StartLabel "A"); (3, StartLabel "B"); (5, StopId 2);
   (7, StartId 2); (8, StopLabel "B"); (9, StopLabel "A")].

End Examples.

(** * Properties *)

Section Properties.
Context {dbl : Double} {nh : NodeHash}.

(** ** Basic facts *)

Lemma bind_Ok {A B} (f : A -> result B) (m : result A) (b : B) :
  mbind f m = Ok b <-> exists a, m = Ok a /\ f a = Ok b.
Proof.
  destruct m as [a| |]; simpl; split.
  - intros Hf. exists a. split; [reflexivity | exact Hf].
  - intros (a' & Ha & Hf). injection Ha as ->. exact Hf.
  - discriminate.
  - intros (a' & Ha & _). discriminate.
  - discriminate.
  - intros (a' & Ha & _). discriminate.
Qed.

Lemma bind_of_Ok {A B} (f : A -> result B) (a : A) : mbind f (Ok a) = f a.
Proof. reflexivity. Qed.

Lemma node_at_Ok (ts : list TimerData) (i : Z) (n : TimerData) :
  node_at ts i = Ok n <-> 0 <= i /\ ts !! Z.to_nat i = Some n.
Proof.
  unfold node_at. destruct (decide (0 <= i)) as [Hi|Hi].
  - destruct (ts !! Z.to_nat i) as [m|] eqn:Hm; split.
    + intros [= ->]. split; [exact Hi | reflexivity].
    + intros [_ [= ->]]. reflexivity.
    + discriminate.
    + intros [_ Hn]. discriminate.
  - split; [discriminate | intros [Hi' _]; contradiction].
Qed.

Lemma node_at_nat (ts : list TimerData) (k : nat) (n : TimerData) :
  ts !! k = Some n -> node_at ts (Z.of_nat k) = Ok n.
Proof.
  intros Hk. apply node_at_Ok. split; [lia|]. rewrite Nat2Z.id. exact Hk.
Qed.

(** ** Construction *)

(** C1.  The constructor leaves exactly one node, the root: id 0, label
    "total", the single group "Total", parent -1, and started (active).  The
    cursor, however, is left at -1: [timers[0].start()] returns 0, and the
    constructor does not store it in [currentId]. *)
Theorem TimerTree_new_root_started_cursor_unset (now : double) :
  timers (TimerTree_new now) =
    [ {| parent_id := -1; id := 0; label := "total"; groups := ["Total"];
         work_unit_label := ""; child_ids := [];
         active := true; start_time := now; total_time := d0;
         call_count := 1 |} ]
  /\ currentId (TimerTree_new now) = -1.
Proof. split; reflexivity. Qed.

(** ** The stop overloads *)

Lemma stop_id_work_never_returns (fuel : nat) (i : Z) (w : double)
    (t : TimerTree) :
  stop_id_work fuel i w t = OutOfFuel.
Proof.
  revert i. induction fuel as [|fuel IH]; intros i; simpl.
  - reflexivity.
  - rewrite IH. reflexivity.
Qed.

Lemma stop_id_work_label_never_returns (fuel : nat) (i : Z) (w : double)
    (wl : string) (t : TimerTree) :
  stop_id_work_label fuel i w wl t = OutOfFuel.
Proof.
  revert i. induction fuel as [|fuel IH]; intros i; simpl.
  - reflexivity.
  - rewrite IH. reflexivity.
Qed.

Lemma TimerData_stop_ret (now : double) (n : TimerData) :
  (TimerData_stop now n).2 = parent_id n.
Proof. unfold TimerData_stop. destruct (active n); reflexivity. Qed.

Lemma stop_id_at_cursor (now : double) (i : Z) (t : TimerTree) (n : TimerData) :
  node_at (timers t) (currentId t) = Ok n ->
  stop_id now i t = Ok (true, stopped_at_cursor now n t).
Proof.
  intros Hn. unfold stop_id, call_at. rewrite Hn. simpl.
  rewrite TimerData_stop_ret. reflexivity.
Qed.

(** C2.  The overloads by id and by label stop the active node at the cursor,
    move the cursor to its parent and return true.  The three overloads that
    take work units never return, for any amount of fuel: each one calls
    itself (directly, or through the three-argument overload by id). *)
Theorem stop_overloads_with_work_units_never_return
    (now : double) (fuel : nat) (i : Z) (lbl : string) (w : double)
    (wl : string) (t : TimerTree) :
  match node_at (timers t) (currentId t) with
  | Ok n =>
      stop_id now i t = Ok (true, stopped_at_cursor now n t)
      /\ stop_label now lbl t = Ok (true, stopped_at_cursor now n t)
      /\ active (TimerData_stop now n).1 = false
  | _ => True
  end
  /\ stop_id_work fuel i w t = OutOfFuel
  /\ stop_id_work_label fuel i w wl t = OutOfFuel
  /\ stop_label_work fuel lbl w wl t = OutOfFuel.
Proof.
  split; [|split; [|split]].
  - destruct (node_at (timers t) (currentId t)) as [n| |] eqn:Hn; [|exact I..].
    split; [|split].
    + apply stop_id_at_cursor. exact Hn.
    + apply (stop_id_at_cursor now 0 t n Hn).
    + unfold TimerData_stop. destruct (active n) eqn:Ha; [reflexivity | exact Ha].
  - apply stop_id_work_never_returns.
  - apply stop_id_work_label_never_returns.
  - unfold stop_label_work. rewrite stop_id_work_label_never_returns.
    reflexivity.
Qed.

(** C10.  Without the debug check, [stop(id)] does not look at [id]: two
    calls from the same state with different ids give the same result.  When
    the cursor names a node, that node is stopped, the cursor moves to its
    parent and both calls return true, whatever node the ids name. *)
Theorem stop_id_ignores_its_argument
    (now : double) (i j : Z) (t : TimerTree) :
  stop_id now i t = stop_id now j t
  /\ match node_at (timers t) (currentId t) with
     | Ok n => stop_id now i t = Ok (true, stopped_at_cursor now n t)
               /\ stop_id now j t = Ok (true, stopped_at_cursor now n t)
     | _ => stop_id now i t = Fault
     end.
Proof.
  split; [reflexivity|].
  destruct (node_at (timers t) (currentId t)) as [n| |] eqn:Hn.
  - split; apply stop_id_at_cursor; exact Hn.
  - unfold stop_id, call_at. rewrite Hn. reflexivity.
  - unfold node_at in Hn. destruct (decide (0 <= currentId t)); [|discriminate].
    destruct (timers t !! Z.to_nat (currentId t)); discriminate.
Qed.

(** ** Hierarchical names *)

Lemma append_assoc (a b c : string) :
  String.append (String.append a b) c = String.append a (String.append b c).
Proof.
  induction a as [|ch a IH].
  - reflexivity.
  - change (String ch (String.append (String.append a b) c)
            = String ch (String.append a (String.append b c))).
    rewrite IH. reflexivity.
Qed.

(** C7.  For a chain root -> A -> B (B's parent is A, A's parent is the root,
    id 0), [getFullLabel] at B gives slash, A, slash, B in normal order and
    B, backslash, A, backslash in reverse order; the root's label is in
    neither.  Two rounds of the loop are enough. *)
Theorem getFullLabel_chain_of_two
    (t : TimerTree) (idA idB : Z) (nA nB : TimerData) (fuel : nat) :
  node_at (timers t) idB = Ok nB -> parent_id nB = idA ->
  node_at (timers t) idA = Ok nA -> parent_id nA = 0 ->
  0 < idA -> 0 < idB -> (2 <= fuel)%nat ->
  getFullLabel fuel idB false t
    = Ok (String.append "/" (String.append (label nA)
            (String.append "/" (label nB))))
  /\ getFullLabel fuel idB true t
    = Ok (String.append (label nB) (String.append backslash
            (String.append (label nA) backslash))).
Proof.
  intros HB HpB HA HpA HposA HposB Hfuel.
  destruct fuel as [|[|fuel]]; [lia | lia |].
  assert (Hwalk : collect_labels (S (S fuel)) (timers t) idB []
                  = Ok [label nB; label nA]).
  { simpl. destruct (decide (idB > 0)) as [_|Hn]; [|lia].
    rewrite HB. simpl. rewrite HpB.
    destruct (decide (idA > 0)) as [_|Hn]; [|lia].
    rewrite HA. simpl. rewrite HpA.
    destruct fuel; reflexivity. }
  unfold getFullLabel. rewrite Hwalk. simpl.
  split; f_equal.
  - rewrite !append_assoc. reflexivity.
  - rewrite !append_assoc. reflexivity.
Qed.

(** ** Calls that leave the structure alone *)

Lemma shape_start (now : double) (n : TimerData) :
  shape (TimerData_start now n).1 = shape n.
Proof. reflexivity. Qed.

Lemma shape_stop (now : double) (n : TimerData) :
  shape (TimerData_stop now n).1 = shape n.
Proof. unfold TimerData_stop. destruct (active n); reflexivity. Qed.

Lemma shape_resetTime (rw : double) (n : TimerData) :
  shape (TimerData_resetTime rw n) = shape n.
Proof. reflexivity. Qed.

Lemma shape_shiftActiveStartTime (sh : double) (n : TimerData) :
  shape (TimerData_shiftActiveStartTime sh n) = shape n.
Proof. reflexivity. Qed.

Lemma shape_identity (n m : TimerData) :
  shape n = shape m -> identity n = identity m.
Proof. unfold shape, identity. intros [= -> -> -> -> -> _]. reflexivity. Qed.

Lemma shape_insert (ts : list TimerData) (k : nat) (n n' : TimerData) :
  ts !! k = Some n -> shape n' = shape n ->
  shape <$> <[k := n']> ts = shape <$> ts.
Proof.
  intros Hk Hs. rewrite list_fmap_insert. apply list_insert_id.
  rewrite list_lookup_fmap, Hk. simpl. rewrite Hs. reflexivity.
Qed.

Lemma shape_lookup (ts ts' : list TimerData) (k : nat) (n : TimerData) :
  shape <$> ts' = shape <$> ts -> ts !! k = Some n ->
  exists n', ts' !! k = Some n' /\ shape n' = shape n.
Proof.
  intros Hs Hk.
  assert (Hl : (shape <$> ts') !! k = Some (shape n)).
  { rewrite Hs, list_lookup_fmap, Hk. reflexivity. }
  rewrite list_lookup_fmap in Hl.
  destruct (ts' !! k) as [n'|]; [|discriminate].
  simpl in Hl. exists n'. split; [reflexivity | congruence].
Qed.

Lemma call_at_shape {R} (f : TimerData -> TimerData * R) (i : Z)
    (ts ts' : list TimerData) (r : R) :
  (forall n, shape (f n).1 = shape n) ->
  call_at f i ts = Ok (ts', r) ->
  shape <$> ts' = shape <$> ts.
Proof.
  intros Hf Hc. unfold call_at in Hc.
  apply bind_Ok in Hc as (n & Hn & [= <- _]).
  apply node_at_Ok in Hn as [_ Hn].
  apply (shape_insert ts _ n); [exact Hn | apply Hf].
Qed.

Lemma update_at_shape (f : TimerData -> TimerData) (i : Z)
    (ts ts' : list TimerData) :
  (forall n, shape (f n) = shape n) ->
  update_at f ts i = Ok ts' ->
  shape <$> ts' = shape <$> ts.
Proof.
  intros Hf Hc. unfold update_at in Hc.
  apply bind_Ok in Hc as (n & Hn & [= <-]).
  apply node_at_Ok in Hn as [_ Hn].
  apply (shape_insert ts _ n); [exact Hn | apply Hf].
Qed.

Lemma for_each_update_at_shape (f : TimerData -> TimerData) (cs : list Z)
    (ts ts' : list TimerData) :
  (forall n, shape (f n) = shape n) ->
  for_each (update_at f) cs ts = Ok ts' ->
  shape <$> ts' = shape <$> ts.
Proof.
  intros Hf. revert ts. induction cs as [|c cs IH]; intros ts Hc; simpl in Hc.
  - injection Hc as <-. reflexivity.
  - apply bind_Ok in Hc as (ts1 & H1 & H2).
    rewrite (IH _ H2). apply (update_at_shape f c); assumption.
Qed.

Lemma node_and_children_shape (f : TimerData -> TimerData) (i : Z)
    (t t' : TimerTree) :
  (forall n, shape (f n) = shape n) ->
  node_and_children f i t = Ok t' ->
  shape <$> timers t' = shape <$> timers t /\ currentId t' = currentId t.
Proof.
  intros Hf Hc. unfold node_and_children in Hc.
  apply bind_Ok in Hc as (ts1 & H1 & Hc).
  apply bind_Ok in Hc as (n & Hn & Hc).
  apply bind_Ok in Hc as (ts2 & H2 & [= <-]). simpl.
  split; [|reflexivity].
  rewrite (for_each_update_at_shape f _ _ _ Hf H2).
  apply (update_at_shape f i); assumption.
Qed.

(** ** Looking a child up, creating it *)

Lemma find_child_found (ts : list TimerData) (lbl : string) (cs : list Z)
    (r : Z) :
  find_child ts lbl cs = Ok r -> 0 <= r ->
  r ∈ cs /\ exists m, node_at ts r = Ok m /\ label m = lbl.
Proof.
  induction cs as [|c cs IH]; simpl; intros Hf Hr.
  - injection Hf as <-. lia.
  - apply bind_Ok in Hf as (m & Hm & Hf).
    destruct (String.eqb (label m) lbl) eqn:He.
    + injection Hf as <-. split; [left|].
      exists m. split; [exact Hm|]. apply String.eqb_eq. exact He.
    + destruct (IH Hf Hr) as [Hin Hex]. split; [right; exact Hin | exact Hex].
Qed.

Lemma find_child_missing (ts : list TimerData) (lbl : string) (cs : list Z)
    (r : Z) :
  find_child ts lbl cs = Ok r -> r < 0 ->
  r = -1 /\
  forall c, c ∈ cs ->
    exists m, node_at ts c = Ok m /\ String.eqb (label m) lbl = false.
Proof.
  induction cs as [|c cs IH]; simpl; intros Hf Hr.
  - injection Hf as <-. split; [reflexivity|]. intros c Hc. inversion Hc.
  - apply bind_Ok in Hf as (m & Hm & Hf).
    destruct (String.eqb (label m) lbl) eqn:He.
    + injection Hf as <-. apply node_at_Ok in Hm as [Hc _]. lia.
    + destruct (IH Hf Hr) as [-> Hall]. split; [reflexivity|].
      intros c' Hc'. apply elem_of_cons in Hc' as [->|Hc'].
      * exists m. split; assumption.
      * apply Hall. exact Hc'.
Qed.

Lemma find_child_app_missing (ts : list TimerData) (lbl : string)
    (cs cs' : list Z) :
  (forall c, c ∈ cs ->
     exists m, node_at ts c = Ok m /\ String.eqb (label m) lbl = false) ->
  find_child ts lbl (cs ++ cs') = find_child ts lbl cs'.
Proof.
  induction cs as [|c cs IH]; intros Hall; simpl.
  - reflexivity.
  - destruct (Hall c) as (m & Hm & He); [left|].
    rewrite Hm. simpl. rewrite He. apply IH.
    intros c' Hc'. apply Hall. right. exact Hc'.
Qed.

Lemma TimerData_new_Some (p : TimerData) (i : Z) (lbl : string)
    (grps : list string) (wul : string) :
  TimerData_new (Some p) i lbl grps wul
    = (fresh_node p i lbl grps wul, Some (with_child p i)).
Proof. reflexivity. Qed.

Lemma initializeTimer_inv (lbl : string) (grps : list string) (wul : string)
    (t t' : TimerTree) (i : Z) :
  initializeTimer lbl grps wul t = Ok (i, t') ->
  exists cur found,
    node_at (timers t) (currentId t) = Ok cur
    /\ find_child (timers t) lbl (child_ids cur) = Ok found
    /\ ((0 <= found /\ i = found /\ t' = t)
        \/ (found < 0 /\ i = Z.of_nat (length (timers t)) /\ i <= INT_MAX
            /\ t' = with_new_child t cur i lbl grps wul)).
Proof.
  unfold initializeTimer, getChildId. intros Hi.
  apply bind_Ok in Hi as (found & Hf & Hi).
  apply bind_Ok in Hf as (cur & Hcur & Hf).
  exists cur, found. split; [exact Hcur|]. split; [exact Hf|].
  destruct (decide (found < 0)) as [Hneg|Hpos].
  - right. destruct (decide (INT_MAX < Z.of_nat (length (timers t)))) as [|Hle];
      [discriminate|].
    rewrite Hcur in Hi. simpl in Hi. injection Hi as <- <-.
    split; [exact Hneg|]. split; [reflexivity|]. split; [lia | reflexivity].
  - left. injection Hi as <- <-. split; [lia|]. split; reflexivity.
Qed.

Lemma with_new_child_old (t : TimerTree) (cur : TimerData) (i : Z)
    (lbl : string) (grps : list string) (wul : string)
    (k : nat) (m : TimerData) :
  node_at (timers t) (currentId t) = Ok cur ->
  timers t !! k = Some m ->
  exists m',
    timers (with_new_child t cur i lbl grps wul) !! k = Some m'
    /\ identity m' = identity m
    /\ (k <> Z.to_nat (currentId t) -> m' = m)
    /\ (k = Z.to_nat (currentId t) -> m' = with_child cur i).
Proof.
  intros Hcur Hk. apply node_at_Ok in Hcur as [_ Hcur].
  pose proof (lookup_lt_Some _ _ _ Hk) as Hlt.
  unfold with_new_child; simpl.
  destruct (decide (k = Z.to_nat (currentId t))) as [->|Hne].
  - exists (with_child cur i).
    rewrite lookup_app_l by (rewrite length_insert; exact Hlt).
    rewrite list_lookup_insert_eq by exact Hlt.
    rewrite Hcur in Hk. injection Hk as <-.
    split; [reflexivity|]. split; [reflexivity|].
    split; [intros Hc; contradiction | reflexivity].
  - exists m.
    rewrite lookup_app_l by (rewrite length_insert; exact Hlt).
    rewrite list_lookup_insert_ne by (intros Heq; apply Hne; symmetry; exact Heq).
    split; [exact Hk|]. split; [reflexivity|].
    split; [reflexivity | intros Hc; contradiction].
Qed.

Lemma with_new_child_new (t : TimerTree) (cur : TimerData) (i : Z)
    (lbl : string) (grps : list string) (wul : string) :
  timers (with_new_child t cur i lbl grps wul) !! length (timers t)
    = Some (fresh_node cur i lbl grps wul).
Proof.
  unfold with_new_child; simpl.
  rewrite lookup_app_r by (rewrite length_insert; lia).
  rewrite length_insert, Nat.sub_diag. reflexivity.
Qed.

Lemma with_new_child_lookup (t : TimerTree) (cur : TimerData) (i : Z)
    (lbl : string) (grps : list string) (wul : string)
    (k : nat) (x : TimerData) :
  node_at (timers t) (currentId t) = Ok cur ->
  timers (with_new_child t cur i lbl grps wul) !! k = Some x ->
  (k = length (timers t) /\ x = fresh_node cur i lbl grps wul)
  \/ (k = Z.to_nat (currentId t) /\ x = with_child cur i
      /\ timers t !! k = Some cur)
  \/ (k <> Z.to_nat (currentId t) /\ timers t !! k = Some x).
Proof.
  intros Hcur Hk. apply node_at_Ok in Hcur as [_ Hcur].
  unfold with_new_child in Hk; simpl in Hk.
  apply lookup_app_Some in Hk as [Hk|[Hge Hk]].
  - right. apply list_lookup_insert_Some in Hk as [(<- & <- & Hlt)|[Hne Hk]].
    + left. split; [reflexivity|]. split; [reflexivity | exact Hcur].
    + right. split; [intros Heq; apply Hne; symmetry; exact Heq | exact Hk].
  - left. rewrite length_insert in Hge, Hk.
    destruct (k - length (timers t))%nat as [|d] eqn:Hd; simpl in Hk.
    + injection Hk as <-. split; [lia | reflexivity].
    + destruct d; discriminate.
Qed.

(** ** Creating a child once *)

(** C5.  When [initializeTimer] returns id [i] for a label, a second call
    with that label from the resulting state (the cursor is still where it
    was) returns [i] again and changes nothing: the second call creates no
    node, so [timers] is as long as after the first call. *)
Theorem initializeTimer_twice_same_id
    (lbl : string) (grps1 grps2 : list string) (wul1 wul2 : string)
    (t t1 : TimerTree) (i : Z) :
  initializeTimer lbl grps1 wul1 t = Ok (i, t1) ->
  currentId t1 = currentId t
  /\ exists t2, initializeTimer lbl grps2 wul2 t1 = Ok (i, t2)
       /\ length (timers t2) = length (timers t1)
       /\ t2 = t1.
Proof.
  intros H1.
  destruct (initializeTimer_inv _ _ _ _ _ _ H1)
    as (cur & found & Hcur & Hfind & [(Hpos & -> & ->)|(Hneg & Hi & Hmax & ->)]).
  - split; [reflexivity|]. exists t. split; [|split; reflexivity].
    unfold initializeTimer, getChildId. rewrite Hcur. simpl. rewrite Hfind.
    simpl. destruct (decide (found < 0)); [lia | reflexivity].
  - split; [reflexivity|].
    exists (with_new_child t cur i lbl grps1 wul1).
    split; [|split; reflexivity].
    pose proof Hcur as Hcur'. apply node_at_Ok in Hcur' as [Hc0 Hlk].
    destruct (with_new_child_old t cur i lbl grps1 wul1 _ _ Hcur Hlk)
      as (cur' & Hlk' & _ & _ & Hcur'eq).
    rewrite (Hcur'eq eq_refl) in Hlk'.
    destruct (find_child_missing _ _ _ _ Hfind Hneg) as [_ Hall].
    assert (Hn : node_at (timers (with_new_child t cur i lbl grps1 wul1))
                   (currentId t) = Ok (with_child cur i)).
    { apply node_at_Ok. split; assumption. }
    assert (Hnew : node_at (timers (with_new_child t cur i lbl grps1 wul1)) i
                   = Ok (fresh_node cur i lbl grps1 wul1)).
    { apply node_at_Ok. split; [lia|]. rewrite Hi, Nat2Z.id.
      rewrite <- Hi. apply with_new_child_new. }
    assert (Hget : getChildId lbl (with_new_child t cur i lbl grps1 wul1)
                   = Ok i).
    { unfold getChildId.
      change (currentId (with_new_child t cur i lbl grps1 wul1))
        with (currentId t).
      rewrite Hn, bind_of_Ok.
      change (child_ids (with_child cur i)) with (child_ids cur ++ [i]).
      rewrite find_child_app_missing.
      - unfold find_child. rewrite Hnew, bind_of_Ok.
        change (label (fresh_node cur i lbl grps1 wul1)) with lbl.
        rewrite String.eqb_refl. reflexivity.
      - intros c Hc. destruct (Hall c Hc) as (m & Hm & He).
        apply node_at_Ok in Hm as [Hc' Hm].
        destruct (with_new_child_old t cur i lbl grps1 wul1 _ _ Hcur Hm)
          as (m' & Hm' & Hid & _).
        exists m'. split; [apply node_at_Ok; split; assumption|].
        unfold identity in Hid. injection Hid as _ _ Hl _ _.
        rewrite Hl. exact He. }
    unfold initializeTimer. rewrite Hget, bind_of_Ok.
    destruct (decide (i < 0)); [lia | reflexivity].
Qed.

(** ** The invariant is kept *)

Lemma nodes_ok_shape (ts ts' : list TimerData) :
  shape <$> ts' = shape <$> ts -> nodes_ok ts -> nodes_ok ts'.
Proof.
  intros Hs Hok k n' Hk.
  destruct (shape_lookup ts' ts k n' (eq_sym Hs) Hk) as (n & Hn & Hsn).
  destruct (Hok k n Hn) as (Hid & Hpar & Hkids & Hnd).
  unfold shape in Hsn. injection Hsn as Hp Hi Hl Hg Hw Hc.
  split; [congruence|]. split; [rewrite <- Hp; exact Hpar|].
  split; [|rewrite <- Hc; exact Hnd].
  intros c Hin. rewrite <- Hc in Hin.
  destruct (Hkids c Hin) as (Hlt & m & Hm & Hpm).
  split; [exact Hlt|].
  destruct (shape_lookup ts ts' _ m Hs Hm) as (m' & Hm' & Hsm).
  exists m'. split; [exact Hm'|].
  unfold shape in Hsm. injection Hsm as Hp' _ _ _ _ _. congruence.
Qed.

Lemma nodes_ok_new (now : double) : nodes_ok (timers (TimerTree_new now)).
Proof.
  intros k n Hk. destruct k as [|k]; simpl in Hk.
  - injection Hk as <-. simpl. split; [reflexivity|]. split; [lia|].
    split; [|constructor]. intros c Hc. inversion Hc.
  - destruct k; discriminate.
Qed.

Lemma nodes_ok_with_new_child (t : TimerTree) (cur : TimerData)
    (lbl : string) (grps : list string) (wul : string) :
  node_at (timers t) (currentId t) = Ok cur ->
  nodes_ok (timers t) ->
  nodes_ok (timers (with_new_child t cur (Z.of_nat (length (timers t)))
                      lbl grps wul)).
Proof.
  intros Hcur Hok. set (i := Z.of_nat (length (timers t))).
  pose proof Hcur as Hcur'. apply node_at_Ok in Hcur' as [Hc0 Hlk].
  destruct (Hok _ _ Hlk) as (Hidcur & Hparcur & Hkidscur & Hndcur).
  pose proof (lookup_lt_Some _ _ _ Hlk) as Hcurlt.
  assert (Hold : forall c m, 0 <= c -> timers t !! Z.to_nat c = Some m ->
            exists m', timers (with_new_child t cur i lbl grps wul)
                         !! Z.to_nat c = Some m'
                       /\ parent_id m' = parent_id m).
  { intros c m _ Hm.
    destruct (with_new_child_old t cur i lbl grps wul _ _ Hcur Hm)
      as (m' & Hm' & Hidm & _).
    exists m'. split; [exact Hm'|].
    unfold identity in Hidm. injection Hidm as _ Hp _ _ _. exact Hp. }
  intros k x Hk.
  destruct (with_new_child_lookup t cur i lbl grps wul k x Hcur Hk)
    as [[-> ->]|[(-> & -> & _)|[Hne Hx]]].
  - split; [reflexivity|]. split; [simpl; unfold i; lia|].
    split; [|constructor].
    intros c Hc. inversion Hc.
  - split; [exact Hidcur|]. split; [exact Hparcur|].
    change (child_ids (with_child cur i)) with (child_ids cur ++ [i]).
    split.
    2:{ apply NoDup_app. split; [exact Hndcur|]. split; [|apply NoDup_singleton].
        intros c Hc Hci. apply list_elem_of_singleton in Hci as ->.
        destruct (Hkidscur i Hc) as (_ & m & Hm & _).
        apply lookup_lt_Some in Hm. unfold i in Hm. lia. }
    intros c Hc.
    apply elem_of_app in Hc as [Hc|Hc].
    + destruct (Hkidscur c Hc) as (Hlt & m & Hm & Hpm).
      split; [exact Hlt|].
      destruct (Hold c m ltac:(lia) Hm) as (m' & Hm' & Hp').
      exists m'. split; [exact Hm' | congruence].
    + apply list_elem_of_singleton in Hc as ->.
      split; [unfold i; lia|].
      exists (fresh_node cur i lbl grps wul).
      split; [|exact Hidcur].
      replace (Z.to_nat i) with (length (timers t)) by (unfold i; lia).
      apply with_new_child_new.
  - destruct (Hok _ _ Hx) as (Hidx & Hparx & Hkidsx & Hndx).
    split; [exact Hidx|]. split; [exact Hparx|]. split; [|exact Hndx].
    intros c Hc. destruct (Hkidsx c Hc) as (Hlt & m & Hm & Hpm).
    split; [exact Hlt|].
    destruct (Hold c m ltac:(lia) Hm) as (m' & Hm' & Hp').
    exists m'. split; [exact Hm' | congruence].
Qed.

Lemma initializeTimer_nodes_ok (lbl : string) (grps : list string)
    (wul : string) (t t' : TimerTree) (i : Z) :
  initializeTimer lbl grps wul t = Ok (i, t') ->
  nodes_ok (timers t) -> nodes_ok (timers t').
Proof.
  intros Hi Hok.
  destruct (initializeTimer_inv _ _ _ _ _ _ Hi)
    as (cur & found & Hcur & _ & [(_ & _ & ->)|(_ & -> & _ & ->)]).
  - exact Hok.
  - apply nodes_ok_with_new_child; assumption.
Qed.

(** ** What one call does to the structure *)

(** A call that returns either leaves every node's shape alone, or first
    appends one new child under the cursor and then leaves shapes alone. *)
Lemma exec_structure (fuel : nat) (now : double) (o : op) (t t' : TimerTree) :
  exec fuel now o t = Ok t' ->
  exists t1,
    (t1 = t
     \/ exists cur lbl grps wul,
          node_at (timers t) (currentId t) = Ok cur
          /\ t1 = with_new_child t cur (Z.of_nat (length (timers t)))
                    lbl grps wul)
    /\ shape <$> timers t' = shape <$> timers t1.
Proof.
  intros He. destruct o; simpl in He.
  - apply bind_Ok in He as ([i t1] & Hi & [= <-]).
    exists t1. split; [|reflexivity].
    destruct (initializeTimer_inv _ _ _ _ _ _ Hi)
      as (cur & found & Hcur & _ & [(_ & _ & ->)|(_ & -> & _ & ->)]).
    + left. reflexivity.
    + right. exists cur, lbl, grps, workUnit. split; [exact Hcur | reflexivity].
  - apply bind_Ok in He as ([b t1] & Hs & [= <-]).
    unfold start_id in Hs. apply bind_Ok in Hs as ([ts ret] & Hc & [= _ <-]).
    exists t. split; [left; reflexivity|]. simpl.
    apply (call_at_shape _ _ _ _ _ (shape_start now) Hc).
  - apply bind_Ok in He as ([b t2] & Hs & [= <-]).
    unfold start_label in Hs.
    apply bind_Ok in Hs as ([i t1] & Hi & Hs).
    apply bind_Ok in Hs as ([ts ret] & Hc & [= _ <-]).
    exists t1. split.
    + destruct (initializeTimer_inv _ _ _ _ _ _ Hi)
        as (cur & found & Hcur & _ & [(_ & _ & ->)|(_ & -> & _ & ->)]).
      * left. reflexivity.
      * right. exists cur, lbl, [], "".
        split; [exact Hcur | reflexivity].
    + simpl. apply (call_at_shape _ _ _ _ _ (shape_start now) Hc).
  - apply bind_Ok in He as ([b t1] & Hs & [= <-]).
    unfold stop_id in Hs. apply bind_Ok in Hs as ([ts ret] & Hc & [= _ <-]).
    exists t. split; [left; reflexivity|]. simpl.
    apply (call_at_shape _ _ _ _ _ (shape_stop now) Hc).
  - rewrite stop_id_work_never_returns in He. discriminate.
  - rewrite stop_id_work_label_never_returns in He. discriminate.
  - apply bind_Ok in He as ([b t1] & Hs & [= <-]).
    unfold stop_label in Hs. apply bind_Ok in Hs as ([ts ret] & Hc & [= _ <-]).
    exists t. split; [left; reflexivity|]. simpl.
    apply (call_at_shape _ _ _ _ _ (shape_stop now) Hc).
  - unfold stop_label_work in He.
    rewrite stop_id_work_label_never_returns in He. discriminate.
  - exists t. split; [left; reflexivity|].
    apply (node_and_children_shape _ _ _ _ (shape_resetTime resetWallTime) He).
  - exists t. split; [left; reflexivity|].
    apply (node_and_children_shape _ _ _ _
             (shape_shiftActiveStartTime shiftTime) He).
Qed.

Lemma exec_nodes_ok (fuel : nat) (now : double) (o : op) (t t' : TimerTree) :
  exec fuel now o t = Ok t' -> nodes_ok (timers t) -> nodes_ok (timers t').
Proof.
  intros He Hok.
  destruct (exec_structure _ _ _ _ _ He)
    as (t1 & [->|(cur & lbl & grps & wul & Hcur & ->)] & Hs).
  - apply (nodes_ok_shape _ _ Hs Hok).
  - apply (nodes_ok_shape _ _ Hs).
    apply nodes_ok_with_new_child; assumption.
Qed.

Lemma reachable_nodes_ok (t : TimerTree) :
  reachable t -> nodes_ok (timers t).
Proof.
  induction 1 as [now|fuel now o t t' _ IH He].
  - apply nodes_ok_new.
  - apply (exec_nodes_ok _ _ _ _ _ He IH).
Qed.

Lemma identity_fmap_shape (ts : list TimerData) :
  identity <$> ts = identity_of_shape <$> (shape <$> ts).
Proof. rewrite <- list_fmap_compose. reflexivity. Qed.

Lemma exec_identity_prefix (fuel : nat) (now : double) (o : op)
    (t t' : TimerTree) :
  exec fuel now o t = Ok t' ->
  (identity <$> timers t) `prefix_of` (identity <$> timers t').
Proof.
  intros He.
  destruct (exec_structure _ _ _ _ _ He)
    as (t1 & [->|(cur & lbl & grps & wul & Hcur & ->)] & Hs).
  - exists []. rewrite app_nil_r, !identity_fmap_shape, Hs. reflexivity.
  - apply node_at_Ok in Hcur as [_ Hcur].
    eexists. rewrite (identity_fmap_shape (timers t')), Hs.
    rewrite <- identity_fmap_shape. unfold with_new_child; simpl.
    rewrite fmap_app, list_fmap_insert.
    rewrite (list_insert_id (identity <$> timers t)); [reflexivity|].
    rewrite list_lookup_fmap, Hcur. reflexivity.
Qed.

(** ** Dense and stable ids *)

(** C9.  In a reachable tree the node at index [k] has id [k].  When
    [initializeTimer] creates a node there, the node is appended at index
    [length timers], its id is that length and its parent id is [currentId].
    No call removes, moves or re-ids a node: after any call that returns,
    the identities (id, parent id, label, groups, work-unit label) of the
    nodes that were there are a prefix of those of the nodes that are. *)
Theorem ids_dense_and_stable (t : TimerTree) :
  reachable t ->
  (forall (k : nat) (n : TimerData),
     timers t !! k = Some n -> id n = Z.of_nat k)
  /\ (forall lbl grps wul i t',
        initializeTimer lbl grps wul t = Ok (i, t') ->
        length (timers t') <> length (timers t) ->
        i = Z.of_nat (length (timers t))
        /\ length (timers t') = S (length (timers t))
        /\ exists n, timers t' !! length (timers t) = Some n
             /\ id n = i /\ parent_id n = currentId t
             /\ label n = lbl /\ groups n = grps /\ work_unit_label n = wul)
  /\ (forall fuel now o t',
        exec fuel now o t = Ok t' ->
        (identity <$> timers t) `prefix_of` (identity <$> timers t')).
Proof.
  intros Hr. pose proof (reachable_nodes_ok t Hr) as Hok.
  split; [|split].
  - intros k n Hk. apply (Hok k n Hk).
  - intros lbl grps wul i t' Hi Hlen.
    destruct (initializeTimer_inv _ _ _ _ _ _ Hi)
      as (cur & found & Hcur & _ & [(_ & _ & ->)|(_ & -> & _ & ->)]).
    + contradiction.
    + split; [reflexivity|]. split.
      * unfold with_new_child; simpl.
        rewrite length_app, length_insert. simpl. lia.
      * exists (fresh_node cur (Z.of_nat (length (timers t))) lbl grps wul).
        split; [apply with_new_child_new|].
        split; [reflexivity|]. split; [|repeat split].
        apply node_at_Ok in Hcur as [Hc0 Hlk].
        destruct (Hok _ _ Hlk) as [Hid _]. simpl. rewrite Hid. lia.
  - intros fuel now o t' He. apply (exec_identity_prefix _ _ _ _ _ He).
Qed.

(** ** Group time *)

Lemma in_groups_existsb (group : string) (gs : list string) :
  existsb (String.eqb group) gs = true <-> group ∈ gs.
Proof.
  rewrite existsb_exists. split.
  - intros (x & Hin & He). apply String.eqb_eq in He as ->.
    apply list_elem_of_In. exact Hin.
  - intros Hin. exists group. split.
    + apply list_elem_of_In. exact Hin.
    + apply String.eqb_refl.
Qed.

(** The second loop of [getGroupTime], given what each child contributes. *)
Lemma sum_of_children (F : Z -> result double) (cs : list Z)
    (vs : list double) (acc : double) :
  Forall2 (fun c v => F c = Ok v) cs vs ->
  for_each (fun groupTime childId => g ← F childId; Ok (dadd groupTime g))
           cs acc
    = Ok (fold_left dadd vs acc).
Proof.
  intros Hall. revert acc.
  induction Hall as [|c v cs vs Hc _ IH]; intros acc; simpl.
  - reflexivity.
  - rewrite Hc. simpl. apply IH.
Qed.

Lemma Forall2_choice {A B} (R : A -> B -> Prop) (xs : list A) :
  (forall x, x ∈ xs -> exists y, R x y) -> exists ys, Forall2 R xs ys.
Proof.
  induction xs as [|x xs IH]; intros Hall.
  - exists []. constructor.
  - destruct (Hall x) as [y Hy]; [left|].
    destruct IH as [ys Hys].
    + intros x' Hx'. apply Hall. right. exact Hx'.
    + exists (y :: ys). constructor; assumption.
Qed.

(** On a tree that satisfies the invariant, [getGroupTime] returns, and
    returns the same value for every amount of fuel from
    [length timers - k] on. *)
Lemma getGroupTime_returns (group : string) (t : TimerTree) :
  nodes_ok (timers t) ->
  forall (d k : nat) (n : TimerData),
    timers t !! k = Some n ->
    (length (timers t) - k <= d)%nat ->
    exists v, forall fuel, (d <= fuel)%nat ->
      getGroupTime fuel group (Z.of_nat k) t = Ok v.
Proof.
  intros Hok. induction d as [|d IH]; intros k n Hk Hd.
  - apply lookup_lt_Some in Hk. lia.
  - destruct (existsb (String.eqb group) (groups n)) eqn:Hmem.
    + exists (TimerData_getAverageTime n). intros [|fuel] Hfuel; [lia|].
      simpl. rewrite (node_at_nat _ _ _ Hk). simpl. rewrite Hmem. reflexivity.
    + destruct (Hok k n Hk) as (_ & _ & Hkids & _).
      destruct (Forall2_choice
                  (fun c v => forall fuel, (d <= fuel)%nat ->
                     getGroupTime fuel group c t = Ok v) (child_ids n))
        as [vs Hvs].
      { intros c Hc. destruct (Hkids c Hc) as (Hlt & m & Hm & _).
        destruct (IH (Z.to_nat c) m Hm) as [v Hv]; [lia|].
        exists v. intros fuel Hfuel. rewrite <- (Hv fuel Hfuel).
        f_equal. lia. }
      exists (fold_left dadd vs d0). intros [|fuel] Hfuel; [lia|].
      simpl. rewrite (node_at_nat _ _ _ Hk). simpl. rewrite Hmem.
      apply sum_of_children.
      eapply Forall2_impl; [exact Hvs|].
      intros c v Hv. apply Hv. lia.
Qed.

(** C4.  On a reachable tree [getGroupTime(group, id)] returns, with the
    same value [v] for every sufficient amount of fuel.  If the node belongs
    to the group, [v] is the node's own average time and nothing of any
    descendant is added, whether or not a descendant belongs to the group.
    Otherwise [v] is the sum, from [0.0] and in the order of [child_ids], of
    what [getGroupTime] returns for each direct child. *)
Theorem getGroupTime_no_double_counting
    (group : string) (i : Z) (t : TimerTree) (n : TimerData) :
  reachable t ->
  node_at (timers t) i = Ok n ->
  exists v,
    (forall fuel, (length (timers t) <= fuel)%nat ->
       getGroupTime fuel group i t = Ok v)
    /\ (group ∈ groups n -> v = TimerData_getAverageTime n)
    /\ (group ∉ groups n ->
        exists vs,
          Forall2 (fun c vc => forall fuel, (length (timers t) <= fuel)%nat ->
                     getGroupTime fuel group c t = Ok vc)
                  (child_ids n) vs
          /\ v = fold_left dadd vs d0).
Proof.
  intros Hr Hn. pose proof (reachable_nodes_ok t Hr) as Hok.
  apply node_at_Ok in Hn as [Hi Hk].
  pose proof (lookup_lt_Some _ _ _ Hk) as Hlt.
  destruct (getGroupTime_returns group t Hok (length (timers t)) _ n Hk)
    as [v Hv]; [lia|].
  rewrite Z2Nat.id in Hv by exact Hi.
  exists v. split; [exact Hv|].
  pose proof (Hv (length (timers t)) (le_n _)) as Hrun.
  destruct (length (timers t)) as [|N] eqn:HN; [lia|].
  simpl in Hrun.
  assert (Hnode : node_at (timers t) i = Ok n)
    by (apply node_at_Ok; split; assumption).
  rewrite Hnode in Hrun. simpl in Hrun.
  split.
  - intros Hmem. apply in_groups_existsb in Hmem.
    rewrite Hmem in Hrun. injection Hrun as <-. reflexivity.
  - intros Hmem.
    destruct (existsb (String.eqb group) (groups n)) eqn:He.
    { apply in_groups_existsb in He. contradiction. }
    destruct (Hok _ n Hk) as (_ & _ & Hkids & _).
    destruct (Forall2_choice
                (fun c vc => forall fuel, (N <= fuel)%nat ->
                   getGroupTime fuel group c t = Ok vc) (child_ids n))
      as [vs Hvs].
    { intros c Hc. destruct (Hkids c Hc) as (Hcl & m & Hm & _).
      pose proof (lookup_lt_Some _ _ _ Hm) as Hmlt.
      destruct (getGroupTime_returns group t Hok N _ m Hm) as [vc Hvc]; [lia|].
      exists vc. intros fuel Hfuel. rewrite <- (Hvc fuel Hfuel).
      f_equal. lia. }
    exists vs. split.
    + eapply Forall2_impl; [exact Hvs|].
      intros c vc Hvc fuel Hfuel. apply Hvc. lia.
    + rewrite (sum_of_children (fun c => getGroupTime N group c t)
                 (child_ids n) vs d0) in Hrun.
      * injection Hrun as <-. reflexivity.
      * eapply Forall2_impl; [exact Hvs|].
        intros c vc Hvc. apply Hvc. lia.
Qed.

(** ** Reset and shift: the node and its direct children *)

Lemma update_at_inv (f : TimerData -> TimerData) (ts ts' : list TimerData)
    (i : Z) :
  update_at f ts i = Ok ts' ->
  0 <= i /\ exists n, ts !! Z.to_nat i = Some n
                      /\ ts' = <[Z.to_nat i := f n]> ts.
Proof.
  unfold update_at. intros Hu.
  apply bind_Ok in Hu as (n & Hn & [= <-]).
  apply node_at_Ok in Hn as [Hi Hn].
  split; [exact Hi|]. exists n. split; [exact Hn | reflexivity].
Qed.

Lemma for_each_update_at_frame (f : TimerData -> TimerData) (cs : list Z)
    (ts ts' : list TimerData) (j : nat) :
  for_each (update_at f) cs ts = Ok ts' ->
  Z.of_nat j ∉ cs ->
  ts' !! j = ts !! j.
Proof.
  revert ts. induction cs as [|c cs IH]; intros ts Hf Hj; simpl in Hf.
  - injection Hf as <-. reflexivity.
  - apply bind_Ok in Hf as (ts1 & H1 & Hf).
    apply not_elem_of_cons in Hj as [Hjc Hj].
    rewrite (IH _ Hf Hj).
    apply update_at_inv in H1 as (Hc & n & _ & ->).
    apply list_lookup_insert_ne. lia.
Qed.

Lemma for_each_update_at_returns (f : TimerData -> TimerData) (cs : list Z)
    (ts : list TimerData) :
  (forall c, c ∈ cs -> 0 <= c /\ (Z.to_nat c < length ts)%nat) ->
  exists ts', for_each (update_at f) cs ts = Ok ts'.
Proof.
  revert ts. induction cs as [|c cs IH]; intros ts Hall; simpl.
  - exists ts. reflexivity.
  - destruct (Hall c) as [Hc Hlt]; [left|].
    destruct (lookup_lt_is_Some_2 _ _ Hlt) as [n Hn].
    assert (Hu : update_at f ts c = Ok (<[Z.to_nat c := f n]> ts)).
    { unfold update_at.
      rewrite (proj2 (node_at_Ok ts c n) (conj Hc Hn)). reflexivity. }
    rewrite Hu, bind_of_Ok. apply IH.
    intros c' Hc'. rewrite length_insert. apply Hall. right. exact Hc'.
Qed.

Lemma for_each_update_at_applied (f : TimerData -> TimerData) (cs : list Z)
    (ts ts' : list TimerData) :
  for_each (update_at f) cs ts = Ok ts' ->
  NoDup cs ->
  forall c m, c ∈ cs -> 0 <= c -> ts !! Z.to_nat c = Some m ->
    ts' !! Z.to_nat c = Some (f m).
Proof.
  revert ts. induction cs as [|c0 cs IH]; intros ts Hf Hnd c m Hc Hpos Hm;
    simpl in Hf.
  - inversion Hc.
  - apply bind_Ok in Hf as (ts1 & H1 & Hf).
    apply NoDup_cons in Hnd as [Hc0 Hnd].
    apply update_at_inv in H1 as (Hc0pos & n0 & Hn0 & ->).
    apply elem_of_cons in Hc as [->|Hc].
    + rewrite (for_each_update_at_frame f cs _ _ _ Hf)
        by (rewrite Z2Nat.id by exact Hpos; exact Hc0).
      rewrite list_lookup_insert_eq by (apply (lookup_lt_Some _ _ _ Hm)).
      congruence.
    + apply (IH _ Hf Hnd c m Hc Hpos).
      rewrite list_lookup_insert_ne; [exact Hm|].
      intros Heq. apply Hc0.
      assert (c0 = c) as -> by lia. exact Hc.
Qed.

Lemma node_and_children_one_level (f : TimerData -> TimerData) (i : Z)
    (t : TimerTree) (n : TimerData) :
  (forall m, shape (f m) = shape m) ->
  nodes_ok (timers t) ->
  node_at (timers t) i = Ok n ->
  exists t',
    node_and_children f i t = Ok t'
    /\ currentId t' = currentId t
    /\ (forall j : nat, Z.of_nat j <> i -> Z.of_nat j ∉ child_ids n ->
          timers t' !! j = timers t !! j)
    /\ timers t' !! Z.to_nat i = Some (f n)
    /\ (forall c m, c ∈ child_ids n -> timers t !! Z.to_nat c = Some m ->
          timers t' !! Z.to_nat c = Some (f m)).
Proof.
  intros Hf Hok Hn. pose proof Hn as Hn'.
  apply node_at_Ok in Hn' as [Hi Hk].
  destruct (Hok _ _ Hk) as (_ & _ & Hkids & Hnd).
  pose proof (lookup_lt_Some _ _ _ Hk) as Hlt.
  set (ts1 := <[Z.to_nat i := f n]> (timers t)).
  assert (Hcs : child_ids (f n) = child_ids n).
  { pose proof (Hf n) as Hs. unfold shape in Hs.
    injection Hs as _ _ _ _ _ Hc. exact Hc. }
  assert (H1 : node_at ts1 i = Ok (f n)).
  { apply node_at_Ok. split; [exact Hi|].
    apply list_lookup_insert_eq. exact Hlt. }
  destruct (for_each_update_at_returns f (child_ids n) ts1) as [ts2 H2].
  { intros c Hc. destruct (Hkids c Hc) as (Hc' & m & Hm & _).
    split; [lia|]. unfold ts1. rewrite length_insert.
    apply (lookup_lt_Some _ _ _ Hm). }
  exists {| timers := ts2; currentId := currentId t |}.
  assert (Hself : Z.of_nat (Z.to_nat i) ∉ child_ids n).
  { intros Hc. destruct (Hkids _ Hc) as [Hc' _]. lia. }
  split; [|split; [reflexivity|split; [|split]]]; simpl.
  - unfold node_and_children, update_at. rewrite Hn, bind_of_Ok.
    fold ts1. rewrite bind_of_Ok, H1, bind_of_Ok, Hcs.
    fold (update_at f). rewrite H2. reflexivity.
  - intros j Hji Hjc.
    rewrite (for_each_update_at_frame f _ _ _ _ H2 Hjc).
    apply list_lookup_insert_ne. lia.
  - rewrite (for_each_update_at_frame f _ _ _ _ H2 Hself).
    apply list_lookup_insert_eq. exact Hlt.
  - intros c m Hc Hm. destruct (Hkids c Hc) as (Hc' & _).
    apply (for_each_update_at_applied f _ _ _ H2 Hnd c m Hc); [lia|].
    unfold ts1. rewrite list_lookup_insert_ne; [exact Hm | lia].
Qed.

(** A grandchild is neither the node nor one of its direct children. *)
Lemma grandchild_is_outside (ts : list TimerData) (k : nat)
    (n m : TimerData) (c g : Z) :
  nodes_ok ts ->
  ts !! k = Some n -> c ∈ child_ids n ->
  ts !! Z.to_nat c = Some m -> g ∈ child_ids m ->
  0 <= g /\ g <> Z.of_nat k /\ g ∉ child_ids n.
Proof.
  intros Hok Hk Hc Hm Hg.
  destruct (Hok _ _ Hk) as (_ & _ & Hkids & _).
  destruct (Hok _ _ Hm) as (_ & _ & Hkidsm & _).
  destruct (Hkids c Hc) as [Hkc _].
  destruct (Hkidsm g Hg) as (Hcg & x & Hx & Hpx).
  split; [lia|]. split; [lia|].
  intros Hgn. destruct (Hkids g Hgn) as (_ & y & Hy & Hpy).
  rewrite Hx in Hy. injection Hy as <-. lia.
Qed.

(** C8.  On a reachable tree, [resetTime(resetWallTime, id)] and
    [shiftActiveStartTime(shiftTime, id)] return; they apply the node-level
    operation to node [id] and to each node in its [child_ids], and leave
    every other node exactly as it was, timing state included.  In
    particular the children of the children of [id] are left as they
    were. *)
Theorem resetTime_shiftActiveStartTime_one_level
    (rw sh : double) (i : Z) (t : TimerTree) (n : TimerData) :
  reachable t ->
  node_at (timers t) i = Ok n ->
  exists t1 t2,
    resetTime rw i t = Ok t1
    /\ shiftActiveStartTime sh i t = Ok t2
    /\ (forall j : nat, Z.of_nat j <> i -> Z.of_nat j ∉ child_ids n ->
          timers t1 !! j = timers t !! j /\ timers t2 !! j = timers t !! j)
    /\ (forall c m g, c ∈ child_ids n -> timers t !! Z.to_nat c = Some m ->
          g ∈ child_ids m ->
          timers t1 !! Z.to_nat g = timers t !! Z.to_nat g
          /\ timers t2 !! Z.to_nat g = timers t !! Z.to_nat g)
    /\ timers t1 !! Z.to_nat i = Some (TimerData_resetTime rw n)
    /\ timers t2 !! Z.to_nat i = Some (TimerData_shiftActiveStartTime sh n)
    /\ (forall c m, c ∈ child_ids n -> timers t !! Z.to_nat c = Some m ->
          timers t1 !! Z.to_nat c = Some (TimerData_resetTime rw m)
          /\ timers t2 !! Z.to_nat c
             = Some (TimerData_shiftActiveStartTime sh m)).
Proof.
  intros Hr Hn. pose proof (reachable_nodes_ok t Hr) as Hok.
  destruct (node_and_children_one_level (TimerData_resetTime rw) i t n
              (shape_resetTime rw) Hok Hn)
    as (t1 & H1 & _ & Hframe1 & Hnode1 & Hkids1).
  destruct (node_and_children_one_level (TimerData_shiftActiveStartTime sh)
              i t n (shape_shiftActiveStartTime sh) Hok Hn)
    as (t2 & H2 & _ & Hframe2 & Hnode2 & Hkids2).
  exists t1, t2.
  assert (Hframe : forall j : nat, Z.of_nat j <> i ->
            Z.of_nat j ∉ child_ids n ->
            timers t1 !! j = timers t !! j /\ timers t2 !! j = timers t !! j).
  { intros j Hji Hjc. split; [apply Hframe1 | apply Hframe2]; assumption. }
  split; [exact H1|]. split; [exact H2|]. split; [exact Hframe|].
  split; [|split; [exact Hnode1|split; [exact Hnode2|]]].
  - intros c m g Hc Hm Hg.
    apply node_at_Ok in Hn as [Hi Hk].
    destruct (grandchild_is_outside _ _ _ _ _ _ Hok Hk Hc Hm Hg)
      as (Hg0 & Hgi & Hgn).
    apply Hframe; rewrite Z2Nat.id by exact Hg0; [lia | exact Hgn].
  - intros c m Hc Hm. split; [apply Hkids1 | apply Hkids2]; assumption.
Qed.

(** ** Nested start/stop sequences *)

Lemma identity_prefix_lookup (ts ts' : list TimerData) (k : nat)
    (n : TimerData) :
  (identity <$> ts) `prefix_of` (identity <$> ts') ->
  ts !! k = Some n ->
  exists n', ts' !! k = Some n' /\ identity n' = identity n.
Proof.
  intros [rest Hp] Hk.
  assert (Hl : (identity <$> ts') !! k = Some (identity n)).
  { rewrite Hp. apply lookup_app_l_Some.
    rewrite list_lookup_fmap, Hk. reflexivity. }
  rewrite list_lookup_fmap in Hl.
  destruct (ts' !! k) as [n'|]; [|discriminate].
  simpl in Hl. exists n'. split; [reflexivity | congruence].
Qed.

Lemma linked_exec (fuel : nat) (now : double) (o : op) (t t' : TimerTree)
    (opened : list Z) (c0 : Z) :
  exec fuel now o t = Ok t' -> linked t opened c0 -> linked t' opened c0.
Proof.
  intros He. pose proof (exec_identity_prefix _ _ _ _ _ He) as Hp.
  induction opened as [|x rest IH]; simpl.
  - intros _. exact I.
  - intros (Hx & (n & Hn & Hpn) & Hrest).
    split; [exact Hx|]. split; [|apply IH; exact Hrest].
    destruct (identity_prefix_lookup _ _ _ _ Hp Hn) as (n' & Hn' & Hid).
    exists n'. split; [exact Hn'|].
    unfold identity in Hid. injection Hid as _ Hpp _ _ _. congruence.
Qed.

Lemma call_at_inv {R} (f : TimerData -> TimerData * R) (i : Z)
    (ts ts' : list TimerData) (r : R) :
  call_at f i ts = Ok (ts', r) ->
  0 <= i /\ exists n, ts !! Z.to_nat i = Some n
                      /\ ts' = <[Z.to_nat i := (f n).1]> ts
                      /\ r = (f n).2.
Proof.
  unfold call_at. intros Hc.
  apply bind_Ok in Hc as (n & Hn & [= <- <-]).
  apply node_at_Ok in Hn as [Hi Hn].
  split; [exact Hi|]. exists n. split; [exact Hn|]. split; reflexivity.
Qed.

Lemma child_of_cursor (t : TimerTree) (cur : TimerData) (c : Z) :
  nodes_ok (timers t) ->
  node_at (timers t) (currentId t) = Ok cur ->
  c ∈ child_ids cur ->
  0 <= c /\ exists m, timers t !! Z.to_nat c = Some m
                      /\ parent_id m = currentId t /\ id m = c.
Proof.
  intros Hok Hcur Hc. apply node_at_Ok in Hcur as [H0 Hcur].
  destruct (Hok _ _ Hcur) as (_ & _ & Hkids & _).
  destruct (Hkids c Hc) as (Hlt & m & Hm & Hp).
  split; [lia|]. exists m. split; [exact Hm|]. split; [lia|].
  destruct (Hok _ _ Hm) as (Hid & _). lia.
Qed.

(** A start that asks for a child of the cursor moves the cursor to a node
    whose parent is the old cursor. *)
Lemma start_enters_child (fuel : nat) (now : double) (o : op)
    (t t1 : TimerTree) :
  nodes_ok (timers t) ->
  is_start o = true -> starts_child o t = true ->
  exec fuel now o t = Ok t1 ->
  0 <= currentId t1
  /\ exists n, timers t1 !! Z.to_nat (currentId t1) = Some n
               /\ parent_id n = currentId t /\ active n = true.
Proof.
  intros Hok Hs Hchild He. destruct o; try discriminate; simpl in He.
  - apply bind_Ok in He as ([b t1'] & Hst & [= <-]).
    unfold start_id in Hst.
    apply bind_Ok in Hst as ([ts ret] & Hc & [= _ <-]). simpl.
    apply call_at_inv in Hc as (Hi & n & Hn & -> & ->).
    unfold starts_child in Hchild.
    destruct (node_at (timers t) (currentId t)) as [cur| |] eqn:Hcur;
      try discriminate.
    apply bool_decide_eq_true in Hchild.
    destruct (child_of_cursor t cur i Hok Hcur Hchild)
      as (_ & m & Hm & Hp & Hid).
    rewrite Hn in Hm. injection Hm as <-.
    change ((TimerData_start now n).2) with (id n). rewrite Hid.
    split; [exact Hi|]. exists (TimerData_start now n).1.
    split; [|split; [exact Hp | reflexivity]].
    apply list_lookup_insert_eq. apply (lookup_lt_Some _ _ _ Hn).
  - apply bind_Ok in He as ([b t1'] & Hst & [= <-]).
    unfold start_label in Hst.
    apply bind_Ok in Hst as ([i t0] & Hi & Hst).
    apply bind_Ok in Hst as ([ts ret] & Hc & [= _ <-]). simpl.
    apply call_at_inv in Hc as (Hi0 & n & Hn & -> & _).
    split; [exact Hi0|]. exists (TimerData_start now n).1.
    split; [apply list_lookup_insert_eq; apply (lookup_lt_Some _ _ _ Hn)|].
    split; [|reflexivity].
    change (parent_id (TimerData_start now n).1) with (parent_id n).
    destruct (initializeTimer_inv _ _ _ _ _ _ Hi)
      as (cur & found & Hcur & Hfind & [(Hpos & -> & ->)|(_ & Hlen & _ & ->)]).
    + destruct (find_child_found _ _ _ _ Hfind Hpos) as [Hin _].
      destruct (child_of_cursor t cur found Hok Hcur Hin)
        as (_ & m & Hm & Hp & _).
      rewrite Hn in Hm. injection Hm as <-. exact Hp.
    + rewrite Hlen, Nat2Z.id, <- Hlen, with_new_child_new in Hn.
      injection Hn as <-. simpl.
      apply node_at_Ok in Hcur as [H0 Hcur].
      destruct (Hok _ _ Hcur) as (Hid & _). lia.
Qed.

(** A stop that returns moves the cursor to the parent of the node it was
    at. *)
Lemma stop_leaves_to_parent (fuel : nat) (now : double) (o : op)
    (t t1 : TimerTree) :
  is_stop o = true ->
  exec fuel now o t = Ok t1 ->
  0 <= currentId t
  /\ exists n, timers t !! Z.to_nat (currentId t) = Some n
               /\ currentId t1 = parent_id n.
Proof.
  intros Hs He. destruct o; try discriminate; simpl in He.
  - apply bind_Ok in He as ([b t1'] & Hst & [= <-]).
    unfold stop_id in Hst.
    apply bind_Ok in Hst as ([ts ret] & Hc & [= _ <-]). simpl.
    apply call_at_inv in Hc as (Hi & n & Hn & _ & ->).
    split; [exact Hi|]. exists n. split; [exact Hn|].
    apply TimerData_stop_ret.
  - rewrite stop_id_work_never_returns in He. discriminate.
  - rewrite stop_id_work_label_never_returns in He. discriminate.
  - apply bind_Ok in He as ([b t1'] & Hst & [= <-]).
    unfold stop_label in Hst.
    apply bind_Ok in Hst as ([ts ret] & Hc & [= _ <-]). simpl.
    apply call_at_inv in Hc as (Hi & n & Hn & _ & ->).
    split; [exact Hi|]. exists n. split; [exact Hn|].
    apply TimerData_stop_ret.
  - unfold stop_label_work in He.
    rewrite stop_id_work_label_never_returns in He. discriminate.
Qed.

Lemma lifo_nested_children_run (fuel : nat) (c0 : Z)
    (cs : list (double * op)) :
  forall (opened : list Z) (t : TimerTree),
    nodes_ok (timers t) ->
    currentId t = hd c0 opened ->
    linked t opened c0 ->
    lifo_nested_children fuel cs opened t = true ->
    exists t', run fuel cs t = Ok t' /\ currentId t' = c0.
Proof.
  induction cs as [|[now o] cs IH]; intros opened t Hok Hcur Hl Hn.
  - destruct opened; [|discriminate]. exists t. split; [reflexivity | exact Hcur].
  - unfold lifo_nested_children in Hn. simpl in Hn. simpl.
    destruct (exec fuel now o t) as [t1| |] eqn:He; try discriminate.
    rewrite bind_of_Ok.
    pose proof (exec_nodes_ok _ _ _ _ _ He Hok) as Hok1.
    pose proof (linked_exec _ _ _ _ _ _ _ He Hl) as Hl1.
    destruct (is_start o) eqn:Hs.
    + apply andb_true_iff in Hn as [Hchild Hn].
      destruct (start_enters_child _ _ _ _ _ Hok Hs Hchild He)
        as (H0 & n & Hlk & Hp & _).
      apply (IH (currentId t1 :: opened) t1 Hok1); [reflexivity | | exact Hn].
      simpl. split; [exact H0|]. split; [|exact Hl1].
      exists n. split; [exact Hlk | congruence].
    + destruct opened as [|x opened']; [discriminate|].
      apply andb_true_iff in Hn as [Hn Hrest].
      apply andb_true_iff in Hn as [Hstop _].
      destruct (stop_leaves_to_parent _ _ _ _ _ Hstop He)
        as (H0 & n & Hlk & Hret).
      simpl in Hcur, Hl. destruct Hl as (_ & (n' & Hlk' & Hp') & _).
      rewrite Hcur in Hlk. rewrite Hlk in Hlk'. injection Hlk' as <-.
      simpl in Hl1. destruct Hl1 as (_ & _ & Hl1).
      apply (IH opened' t1 Hok1); [congruence | exact Hl1 | exact Hrest].
Qed.

(** In a parent chain the ids shrink: nothing further down is the top. *)
Lemma linked_decreasing (t : TimerTree) (c0 : Z) (rest : list Z) :
  nodes_ok (timers t) ->
  forall x, linked t (x :: rest) c0 -> Forall (fun y => y < x) rest.
Proof.
  intros Hok. induction rest as [|y rest IH]; intros x Hl.
  - constructor.
  - destruct Hl as (Hx & (n & Hn & Hp) & Hrest). simpl in Hp.
    destruct (Hok _ _ Hn) as (_ & Hpar & _).
    assert (Hyx : y < x) by lia.
    constructor; [exact Hyx|].
    eapply Forall_impl; [apply (IH y Hrest)|].
    intros z Hz. simpl in Hz. lia.
Qed.

(** A start leaves running timers running. *)
Lemma start_keeps_active (fuel : nat) (now : double) (o : op)
    (t t1 : TimerTree) (k : nat) (n : TimerData) :
  is_start o = true ->
  exec fuel now o t = Ok t1 ->
  timers t !! k = Some n -> active n = true ->
  exists n', timers t1 !! k = Some n' /\ active n' = true.
Proof.
  intros Hs He Hk Hact.
  assert (Hins : forall (ts : list TimerData) i m x, ts !! k = Some m ->
            active m = true -> ts !! i = Some x ->
            exists n', <[i := (TimerData_start now x).1]> ts !! k = Some n'
                       /\ active n' = true).
  { intros ts i m x Hm Ha Hi. destruct (decide (i = k)) as [->|Hne].
    - exists (TimerData_start now x).1. split; [|reflexivity].
      apply list_lookup_insert_eq. apply (lookup_lt_Some _ _ _ Hm).
    - exists m. split; [|exact Ha].
      rewrite list_lookup_insert_ne by exact Hne. exact Hm. }
  destruct o; try discriminate; simpl in He.
  - apply bind_Ok in He as ([b t1'] & Hst & [= <-]).
    unfold start_id in Hst.
    apply bind_Ok in Hst as ([ts ret] & Hc & [= _ <-]). simpl.
    apply call_at_inv in Hc as (_ & x & Hx & -> & _).
    apply (Hins _ _ n x Hk Hact Hx).
  - apply bind_Ok in He as ([b t1'] & Hst & [= <-]).
    unfold start_label in Hst.
    apply bind_Ok in Hst as ([i t0] & Hi & Hst).
    apply bind_Ok in Hst as ([ts ret] & Hc & [= _ <-]). simpl.
    apply call_at_inv in Hc as (_ & x & Hx & -> & _).
    assert (H0 : exists m, timers t0 !! k = Some m /\ active m = true).
    { destruct (initializeTimer_inv _ _ _ _ _ _ Hi)
        as (cur & found & Hcur & _ & [(_ & _ & ->)|(_ & _ & _ & ->)]).
      - exists n. split; assumption.
      - destruct (with_new_child_old t cur i lbl [] "" k n Hcur Hk)
          as (m & Hm & _ & Hne & Heq).
        exists m. split; [exact Hm|].
        destruct (decide (k = Z.to_nat (currentId t))) as [Hk'|Hk'].
        + rewrite (Heq Hk'). simpl.
          apply node_at_Ok in Hcur as [_ Hcur]. rewrite <- Hk' in Hcur.
          rewrite Hk in Hcur. injection Hcur as <-. exact Hact.
        + rewrite (Hne Hk'). exact Hact. }
    destruct H0 as (m & Hm & Ha).
    apply (Hins _ _ m x Hm Ha Hx).
Qed.

(** A stop changes no node but the one at the cursor. *)
Lemma stop_frame (fuel : nat) (now : double) (o : op) (t t1 : TimerTree)
    (k : nat) :
  is_stop o = true ->
  exec fuel now o t = Ok t1 ->
  k <> Z.to_nat (currentId t) ->
  timers t1 !! k = timers t !! k.
Proof.
  intros Hs He Hk. destruct o; try discriminate; simpl in He.
  - apply bind_Ok in He as ([b t1'] & Hst & [= <-]).
    unfold stop_id in Hst.
    apply bind_Ok in Hst as ([ts ret] & Hc & [= _ <-]). simpl.
    apply call_at_inv in Hc as (_ & n & _ & -> & _).
    apply list_lookup_insert_ne. intros Heq. apply Hk. symmetry. exact Heq.
  - rewrite stop_id_work_never_returns in He. discriminate.
  - rewrite stop_id_work_label_never_returns in He. discriminate.
  - apply bind_Ok in He as ([b t1'] & Hst & [= <-]).
    unfold stop_label in Hst.
    apply bind_Ok in Hst as ([ts ret] & Hc & [= _ <-]). simpl.
    apply call_at_inv in Hc as (_ & n & _ & -> & _).
    apply list_lookup_insert_ne. intros Heq. apply Hk. symmetry. exact Heq.
  - unfold stop_label_work in He.
    rewrite stop_id_work_label_never_returns in He. discriminate.
Qed.

Lemma lifo_nested_children_stops_active (fuel : nat) (c0 : Z)
    (cs : list (double * op)) :
  forall (opened : list Z) (t : TimerTree),
    nodes_ok (timers t) ->
    currentId t = hd c0 opened ->
    linked t opened c0 ->
    all_active t opened ->
    lifo_nested_children fuel cs opened t = true ->
    stops_hit_active fuel cs t = true.
Proof.
  induction cs as [|[now o] cs IH]; intros opened t Hok Hcur Hl Hact Hn.
  - reflexivity.
  - unfold lifo_nested_children in Hn. simpl in Hn. simpl.
    destruct (exec fuel now o t) as [t1| |] eqn:He; try discriminate.
    pose proof (exec_nodes_ok _ _ _ _ _ He Hok) as Hok1.
    pose proof (linked_exec _ _ _ _ _ _ _ He Hl) as Hl1.
    destruct (is_start o) eqn:Hs.
    + apply andb_true_iff in Hn as [Hchild Hn].
      assert (Hnostop : is_stop o = false) by (destruct o; try discriminate; reflexivity).
      rewrite Hnostop. simpl.
      destruct (start_enters_child _ _ _ _ _ Hok Hs Hchild He)
        as (H0 & n & Hlk & Hp & Ha).
      apply (IH (currentId t1 :: opened) t1 Hok1); [reflexivity | | | exact Hn].
      * simpl. split; [exact H0|]. split; [|exact Hl1].
        exists n. split; [exact Hlk | congruence].
      * constructor.
        -- split; [exact H0|]. exists n. split; assumption.
        -- eapply Forall_impl; [exact Hact|].
           intros y (Hy & m & Hm & Hma). split; [exact Hy|].
           apply (start_keeps_active _ _ _ _ _ _ _ Hs He Hm Hma).
    + destruct opened as [|x opened']; [discriminate|].
      apply andb_true_iff in Hn as [Hn Hrest].
      apply andb_true_iff in Hn as [Hstop _].
      rewrite Hstop.
      destruct (stop_leaves_to_parent _ _ _ _ _ Hstop He)
        as (H0 & n & Hlk & Hret).
      simpl in Hcur.
      apply Forall_cons in Hact as [(_ & nx & Hnx & Hax) Hact'].
      rewrite Hcur in Hlk. rewrite Hlk in Hnx. injection Hnx as <-.
      assert (Hnode : node_at (timers t) (currentId t) = Ok n).
      { apply node_at_Ok. rewrite Hcur. split; [lia | exact Hlk]. }
      rewrite Hnode, Hax. simpl.
      pose proof (linked_decreasing t c0 opened' Hok x Hl) as Hdec.
      simpl in Hl. destruct Hl as (_ & (n' & Hlk' & Hp') & _).
      rewrite Hlk in Hlk'. injection Hlk' as <-.
      simpl in Hl1. destruct Hl1 as (_ & _ & Hl1).
      apply (IH opened' t1 Hok1); [congruence | exact Hl1 | | exact Hrest].
      apply Forall_forall. intros y Hy.
      rewrite Forall_forall in Hact', Hdec.
      destruct (Hact' y Hy) as (Hy0 & m & Hm & Hma).
      pose proof (Hdec y Hy) as Hyx.
      split; [exact Hy0|]. exists m. split; [|exact Hma].
      rewrite (stop_frame _ _ _ _ _ (Z.to_nat y) Hstop He); [exact Hm|].
      rewrite Hcur. lia.
Qed.

Lemma run_reachable (fuel : nat) (cs : list (double * op)) :
  forall t t', reachable t -> run fuel cs t = Ok t' -> reachable t'.
Proof.
  induction cs as [|[now o] cs IH]; intros t t' Hr Hrun; simpl in Hrun.
  - injection Hrun as <-. exact Hr.
  - apply bind_Ok in Hrun as (t1 & He & Hrun).
    apply (IH t1 t'); [|exact Hrun].
    apply (reachable_exec fuel now o t t1 Hr He).
Qed.

(** ** The structural hash *)

(** A node without children whose own hash is a non-zero multiple of
    [INT_MAX] (below [2^64]): the sum is not 0, so it is not replaced by 1,
    and the remainder is 0. *)
Lemma getHash_zero_on_multiple (i : Z) (t : TimerTree) (n : TimerData)
    (k : Z) :
  node_at (timers t) i = Ok n ->
  child_ids n = [] ->
  TimerData_getHash n = k * INT_MAX ->
  0 < k -> k * INT_MAX < ULONG_MOD ->
  getHash i t = Ok 0.
Proof.
  intros Hn Hc Hh Hk Hlt. unfold getHash.
  rewrite Hn, bind_of_Ok, Hc, Hh. simpl for_each. rewrite bind_of_Ok.
  rewrite (Z.mod_small (k * INT_MAX) ULONG_MOD) by (unfold INT_MAX in *; lia).
  destruct (decide (k * INT_MAX = 0)) as [H0|_].
  - unfold INT_MAX in H0. lia.
  - rewrite Z.mod_mul by (unfold INT_MAX; lia). reflexivity.
Qed.

End Properties.

(** * Further properties of the tree operations *)

Section MoreProperties.
Context {dbl : Double} {nh : NodeHash}.

(** ** What a call does to the vector and to the cursor *)

Lemma shape_length (ts ts' : list TimerData) :
  shape <$> ts' = shape <$> ts -> length ts' = length ts.
Proof.
  intros Hs. rewrite <- (length_fmap shape ts'), Hs. apply length_fmap.
Qed.

(** A call that returns leaves every shape alone, or it found no child of
    the cursor with the label it was given and appended one. *)
Lemma exec_created (fuel : nat) (now : double) (o : op) (t t' : TimerTree) :
  exec fuel now o t = Ok t' ->
  shape <$> timers t' = shape <$> timers t
  \/ (creates o = true
      /\ exists cur found lbl grps wul,
           node_at (timers t) (currentId t) = Ok cur
           /\ find_child (timers t) lbl (child_ids cur) = Ok found
           /\ found < 0
           /\ shape <$> timers t'
              = shape <$> timers (with_new_child t cur
                                    (Z.of_nat (length (timers t)))
                                    lbl grps wul)).
Proof.
  intros He. destruct o; simpl in He.
  - apply bind_Ok in He as ([i t1] & Hi & [= <-]).
    destruct (initializeTimer_inv _ _ _ _ _ _ Hi)
      as (cur & found & Hcur & Hf & [(_ & _ & ->)|(Hneg & -> & _ & ->)]).
    + left. reflexivity.
    + right. split; [reflexivity|].
      exists cur, found, lbl, grps, workUnit. repeat split; assumption.
  - left. apply bind_Ok in He as ([b t1] & Hs & [= <-]).
    unfold start_id in Hs. apply bind_Ok in Hs as ([ts ret] & Hc & [= _ <-]).
    apply (call_at_shape _ _ _ _ _ (shape_start now) Hc).
  - apply bind_Ok in He as ([b t2] & Hs & [= <-]).
    unfold start_label in Hs.
    apply bind_Ok in Hs as ([i t1] & Hi & Hs).
    apply bind_Ok in Hs as ([ts ret] & Hc & [= _ <-]). simpl.
    pose proof (call_at_shape _ _ _ _ _ (shape_start now) Hc) as Hsh.
    destruct (initializeTimer_inv _ _ _ _ _ _ Hi)
      as (cur & found & Hcur & Hf & [(_ & _ & ->)|(Hneg & -> & _ & ->)]).
    + left. exact Hsh.
    + right. split; [reflexivity|].
      exists cur, found, lbl, [], "". repeat split; assumption.
  - left. apply bind_Ok in He as ([b t1] & Hs & [= <-]).
    unfold stop_id in Hs. apply bind_Ok in Hs as ([ts ret] & Hc & [= _ <-]).
    apply (call_at_shape _ _ _ _ _ (shape_stop now) Hc).
  - rewrite stop_id_work_never_returns in He. discriminate.
  - rewrite stop_id_work_label_never_returns in He. discriminate.
  - left. apply bind_Ok in He as ([b t1] & Hs & [= <-]).
    unfold stop_label in Hs. apply bind_Ok in Hs as ([ts ret] & Hc & [= _ <-]).
    apply (call_at_shape _ _ _ _ _ (shape_stop now) Hc).
  - unfold stop_label_work in He.
    rewrite stop_id_work_label_never_returns in He. discriminate.
  - left.
    apply (node_and_children_shape _ _ _ _ (shape_resetTime resetWallTime) He).
  - left.
    apply (node_and_children_shape _ _ _ _
             (shape_shiftActiveStartTime shiftTime) He).
Qed.

Lemma exec_keeps_shape (fuel : nat) (now : double) (o : op)
    (t t' : TimerTree) :
  creates o = false ->
  exec fuel now o t = Ok t' ->
  shape <$> timers t' = shape <$> timers t.
Proof.
  intros Hc He.
  destruct (exec_created _ _ _ _ _ He) as [Hs|[Hcr _]];
    [exact Hs | congruence].
Qed.

Lemma with_new_child_length (t : TimerTree) (cur : TimerData) (i : Z)
    (lbl : string) (grps : list string) (wul : string) :
  length (timers (with_new_child t cur i lbl grps wul))
    = S (length (timers t)).
Proof.
  unfold with_new_child; simpl. rewrite length_app, length_insert. simpl. lia.
Qed.

Lemma exec_length_cases (fuel : nat) (now : double) (o : op)
    (t t' : TimerTree) :
  exec fuel now o t = Ok t' ->
  length (timers t') = length (timers t)
  \/ (creates o = true /\ length (timers t') = S (length (timers t))).
Proof.
  intros He.
  destruct (exec_created _ _ _ _ _ He)
    as [Hs|(Hc & cur & found & lbl & grps & wul & _ & _ & _ & Hs)].
  - left. apply shape_length. exact Hs.
  - right. split; [exact Hc|].
    rewrite (shape_length _ _ Hs). apply with_new_child_length.
Qed.

Lemma exec_cursor_kept (fuel : nat) (now : double) (o : op)
    (t t' : TimerTree) :
  exec fuel now o t = Ok t' ->
  is_start o = false -> is_stop o = false ->
  currentId t' = currentId t.
Proof.
  intros He Hns Hnt. destruct o; try discriminate; simpl in He.
  - apply bind_Ok in He as ([i t1] & Hi & [= <-]).
    destruct (initializeTimer_inv _ _ _ _ _ _ Hi)
      as (cur & found & _ & _ & [(_ & _ & ->)|(_ & _ & _ & ->)]);
      reflexivity.
  - apply (node_and_children_shape _ _ _ _
             (shape_resetTime resetWallTime) He).
  - apply (node_and_children_shape _ _ _ _
             (shape_shiftActiveStartTime shiftTime) He).
Qed.

(** X1.  A call that returns never removes a node and appends at most one;
    only [initializeTimer] and [start(label)] can append.  The cursor is
    moved by the start and stop calls only: [initializeTimer], [resetTime]
    and [shiftActiveStartTime] leave it where it is. *)
Theorem exec_appends_at_most_one
    (fuel : nat) (now : double) (o : op) (t t' : TimerTree) :
  exec fuel now o t = Ok t' ->
  (length (timers t') = length (timers t)
   \/ (creates o = true /\ length (timers t') = S (length (timers t))))
  /\ (is_start o = false -> is_stop o = false ->
      currentId t' = currentId t).
Proof.
  intros He. split.
  - apply (exec_length_cases _ _ _ _ _ He).
  - apply (exec_cursor_kept _ _ _ _ _ He).
Qed.

(** ** The cursor on reachable trees *)

Lemma start_id_inv (now : double) (i : Z) (t t' : TimerTree) (b : bool) :
  start_id now i t = Ok (b, t') ->
  exists n, node_at (timers t) i = Ok n
    /\ b = bool_decide (id n = i)
    /\ t' = {| timers := <[Z.to_nat i := (TimerData_start now n).1]> (timers t);
               currentId := id n |}.
Proof.
  unfold start_id. intros Hs.
  apply bind_Ok in Hs as ([ts ret] & Hc & [= <- <-]).
  apply call_at_inv in Hc as (Hi & n & Hn & -> & ->).
  exists n. split; [apply node_at_Ok; split; assumption|].
  split; reflexivity.
Qed.

Lemma exec_cursor_in_range (fuel : nat) (now : double) (o : op)
    (t t' : TimerTree) :
  nodes_ok (timers t) ->
  -1 <= currentId t < Z.of_nat (length (timers t)) ->
  exec fuel now o t = Ok t' ->
  -1 <= currentId t' < Z.of_nat (length (timers t')).
Proof.
  intros Hok Hcur He.
  assert (Hlen : (length (timers t) <= length (timers t'))%nat).
  { destruct (exec_length_cases _ _ _ _ _ He) as [->|[_ ->]]; lia. }
  destruct (is_start o) eqn:Hs; [|destruct (is_stop o) eqn:Hp].
  - destruct o; try discriminate; simpl in He.
    + apply bind_Ok in He as ([b t1] & Hst & [= <-]).
      apply start_id_inv in Hst as (n & Hn & _ & ->). simpl in *.
      apply node_at_Ok in Hn as [Hi Hn].
      destruct (Hok _ _ Hn) as (Hid & _).
      apply lookup_lt_Some in Hn. rewrite length_insert. lia.
    + apply bind_Ok in He as ([b t1] & Hst & [= <-]).
      unfold start_label in Hst.
      apply bind_Ok in Hst as ([i t0] & _ & Hst).
      apply bind_Ok in Hst as ([ts ret] & Hc & [= _ <-]). simpl.
      apply call_at_inv in Hc as (Hi & n & Hn & -> & _).
      apply lookup_lt_Some in Hn. rewrite length_insert. lia.
  - destruct (stop_leaves_to_parent _ _ _ _ _ Hp He) as (H0 & n & Hn & ->).
    destruct (Hok _ _ Hn) as (_ & Hpar & _).
    apply lookup_lt_Some in Hn. lia.
  - rewrite (exec_cursor_kept _ _ _ _ _ He Hs Hp). lia.
Qed.

Lemma reachable_cursor_in_range (t : TimerTree) :
  reachable t -> -1 <= currentId t < Z.of_nat (length (timers t)).
Proof.
  induction 1 as [now|fuel now o t t' Hr IH He].
  - simpl. lia.
  - apply (exec_cursor_in_range _ _ _ _ _ (reachable_nodes_ok t Hr) IH He).
Qed.

(** X2.  On every reachable tree the cursor is [-1] or the index of a node
    of [timers]: no sequence of calls that return leaves it dangling. *)
Theorem cursor_is_none_or_a_node (t : TimerTree) :
  reachable t ->
  currentId t = -1
  \/ exists n, node_at (timers t) (currentId t) = Ok n /\ id n = currentId t.
Proof.
  intros Hr. pose proof (reachable_cursor_in_range t Hr) as Hc.
  destruct (decide (currentId t = -1)) as [Hm|Hm]; [left; exact Hm|].
  right.
  destruct (lookup_lt_is_Some_2 (timers t) (Z.to_nat (currentId t)))
    as [n Hn]; [lia|].
  exists n. split; [apply node_at_Ok; split; [lia | exact Hn]|].
  destruct (reachable_nodes_ok t Hr _ _ Hn) as (Hid & _). lia.
Qed.

Lemma reachable_root (t : TimerTree) :
  reachable t ->
  exists r, timers t !! 0%nat = Some r
            /\ identity r = (0, -1, "total", ["Total"], "").
Proof.
  induction 1 as [now|fuel now o t t' Hr (r & Hr0 & Hid) He].
  - eexists. split; reflexivity.
  - destruct (identity_prefix_lookup _ _ _ _
                (exec_identity_prefix _ _ _ _ _ He) Hr0) as (r' & Hr' & Hid').
    exists r'. split; [exact Hr' | congruence].
Qed.

(** X3.  Index 0 of every reachable tree is the root the constructor made:
    id 0, no parent, label "total", the single group "Total", no work-unit
    label.  No call renames, regroups or replaces it. *)
Theorem root_stays_the_root (t : TimerTree) :
  reachable t ->
  exists r, node_at (timers t) 0 = Ok r
            /\ id r = 0 /\ parent_id r = -1 /\ label r = "total"
            /\ groups r = ["Total"] /\ work_unit_label r = "".
Proof.
  intros Hr. destruct (reachable_root t Hr) as (r & Hr0 & Hid).
  exists r. split; [apply node_at_Ok; split; [lia | exact Hr0]|].
  unfold identity in Hid. injection Hid as -> -> -> -> ->.
  repeat split; reflexivity.
Qed.

(** X4.  On a reachable tree [stop(id)] and [stop(label)] return exactly
    when there is a current timer.  With the cursor at [-1] they fault
    (they read [timers[-1]]).  Otherwise they return true and move the
    cursor to the parent of the current node, which is a smaller id, and
    [-1] when the current node is the root. *)
Theorem stop_moves_cursor_down
    (now : double) (i : Z) (lbl : string) (t : TimerTree) :
  reachable t ->
  (currentId t = -1 ->
     stop_id now i t = Fault /\ stop_label now lbl t = Fault)
  /\ (currentId t <> -1 ->
      exists n,
        node_at (timers t) (currentId t) = Ok n
        /\ stop_id now i t = Ok (true, stopped_at_cursor now n t)
        /\ stop_label now lbl t = Ok (true, stopped_at_cursor now n t)
        /\ -1 <= parent_id n < currentId t
        /\ (currentId t = 0 -> parent_id n = -1)).
Proof.
  intros Hr. split.
  - intros Hm. unfold stop_id, stop_label, call_at, node_at. rewrite Hm.
    split; reflexivity.
  - intros Hm.
    pose proof (reachable_cursor_in_range t Hr) as Hc.
    destruct (lookup_lt_is_Some_2 (timers t) (Z.to_nat (currentId t)))
      as [n Hn]; [lia|].
    assert (Hnode : node_at (timers t) (currentId t) = Ok n)
      by (apply node_at_Ok; split; [lia | exact Hn]).
    destruct (reachable_nodes_ok t Hr _ _ Hn) as (_ & Hpar & _).
    exists n. split; [exact Hnode|].
    split; [apply stop_id_at_cursor; exact Hnode|].
    split; [apply (stop_id_at_cursor now 0 t n Hnode)|].
    split; lia.
Qed.

(** X5.  On a reachable tree [start(id)] returns true for every id of a
    node: the node is started and becomes the current one, whatever node
    was current before and whether or not [id] is one of its children.  For
    an id outside [timers] the call faults. *)
Theorem start_id_makes_id_current
    (now : double) (i : Z) (t : TimerTree) :
  reachable t ->
  match node_at (timers t) i with
  | Ok n =>
      start_id now i t
      = Ok (true,
            {| timers := <[Z.to_nat i := (TimerData_start now n).1]> (timers t);
               currentId := i |})
  | _ => start_id now i t = Fault
  end.
Proof.
  intros Hr.
  destruct (node_at (timers t) i) as [n| |] eqn:Hn.
  - unfold start_id, call_at. rewrite Hn, !bind_of_Ok.
    apply node_at_Ok in Hn as [Hi Hn].
    destruct (reachable_nodes_ok t Hr _ _ Hn) as (Hid & _).
    change ((TimerData_start now n).2) with (id n).
    assert (Heq : id n = i) by lia. rewrite Heq.
    rewrite bool_decide_eq_true_2 by reflexivity. reflexivity.
  - unfold start_id, call_at. rewrite Hn. reflexivity.
  - unfold node_at in Hn. destruct (decide (0 <= i)); [|discriminate].
    destruct (timers t !! Z.to_nat i); discriminate.
Qed.

(** X6.  With the cursor at [-1], as the constructor leaves it and as a
    stop of the root leaves it, [getChildId], [initializeTimer] and
    [start(label)] fault for every label: each reads [timers[currentId]]
    first.  Only [start(id)] does not read the cursor. *)
Theorem no_current_timer_faults
    (now : double) (lbl : string) (grps : list string) (wul : string)
    (t : TimerTree) :
  currentId t < 0 ->
  getChildId lbl t = Fault
  /\ initializeTimer lbl grps wul t = Fault
  /\ start_label now lbl t = Fault.
Proof.
  intros Hc.
  assert (Hn : node_at (timers t) (currentId t) = Fault).
  { unfold node_at. destruct (decide (0 <= currentId t)); [lia | reflexivity]. }
  assert (Hg : getChildId lbl t = Fault).
  { unfold getChildId. rewrite Hn. reflexivity. }
  split; [exact Hg|].
  assert (Hi : forall g w, initializeTimer lbl g w t = Fault).
  { intros g w. unfold initializeTimer. rewrite Hg. reflexivity. }
  split; [apply Hi|].
  unfold start_label. rewrite Hi. reflexivity.
Qed.

(** ** Sibling labels, parents and children *)

Lemma labels_ok_shape (ts ts' : list TimerData) :
  shape <$> ts' = shape <$> ts -> labels_ok ts -> labels_ok ts'.
Proof.
  intros Hs Hok k n' m1' m2' c1 c2 Hk Hc1 Hc2 Hm1 Hm2 Hl.
  destruct (shape_lookup ts' ts _ _ (eq_sym Hs) Hk) as (n & Hn & Hsn).
  destruct (shape_lookup ts' ts _ _ (eq_sym Hs) Hm1) as (m1 & Hm1o & Hs1).
  destruct (shape_lookup ts' ts _ _ (eq_sym Hs) Hm2) as (m2 & Hm2o & Hs2).
  unfold shape in Hsn, Hs1, Hs2.
  injection Hsn as _ _ _ _ _ Hc. injection Hs1 as _ _ Hl1 _ _ _.
  injection Hs2 as _ _ Hl2 _ _ _.
  apply (Hok k n m1 m2 c1 c2 Hn); congruence.
Qed.

Lemma labels_ok_with_new_child (t : TimerTree) (cur : TimerData)
    (found : Z) (lbl : string) (grps : list string) (wul : string) :
  nodes_ok (timers t) -> labels_ok (timers t) ->
  node_at (timers t) (currentId t) = Ok cur ->
  find_child (timers t) lbl (child_ids cur) = Ok found -> found < 0 ->
  labels_ok (timers (with_new_child t cur (Z.of_nat (length (timers t)))
                       lbl grps wul)).
Proof.
  intros Hok Hlab Hcur Hfind Hneg.
  set (i := Z.of_nat (length (timers t))).
  set (t' := with_new_child t cur i lbl grps wul).
  destruct (find_child_missing _ _ _ _ Hfind Hneg) as [_ Hmiss].
  pose proof Hcur as Hcur'. apply node_at_Ok in Hcur' as [Hc0 Hlk].
  assert (Hnew : timers t' !! Z.to_nat i = Some (fresh_node cur i lbl grps wul)).
  { replace (Z.to_nat i) with (length (timers t)) by (unfold i; lia).
    apply with_new_child_new. }
  (* a child of an old node is an old node, with the label it had *)
  assert (Hold : forall (k : nat) (n m' : TimerData) (c : Z),
            timers t !! k = Some n -> c ∈ child_ids n ->
            timers t' !! Z.to_nat c = Some m' ->
            exists m, timers t !! Z.to_nat c = Some m /\ label m' = label m).
  { intros k n m' c Hn Hc Hm'.
    destruct (Hok _ _ Hn) as (_ & _ & Hkids & _).
    destruct (Hkids c Hc) as (_ & m & Hm & _).
    destruct (with_new_child_old t cur i lbl grps wul _ _ Hcur Hm)
      as (m'' & Hm'' & Hid & _).
    fold t' in Hm''. rewrite Hm' in Hm''. injection Hm'' as <-.
    exists m. split; [exact Hm|].
    unfold identity in Hid. injection Hid as _ _ Hl _ _. exact Hl. }
  intros k x m1 m2 c1 c2 Hk Hc1 Hc2 Hm1 Hm2 Hl.
  destruct (with_new_child_lookup t cur i lbl grps wul k x Hcur Hk)
    as [[-> ->]|[(-> & -> & _)|[Hne Hx]]].
  - inversion Hc1.
  - change (child_ids (with_child cur i)) with (child_ids cur ++ [i])
      in Hc1, Hc2.
    apply elem_of_app in Hc1 as [Hc1|Hc1];
      apply elem_of_app in Hc2 as [Hc2|Hc2].
    + destruct (Hold _ _ _ _ Hlk Hc1 Hm1) as (o1 & Ho1 & Hl1).
      destruct (Hold _ _ _ _ Hlk Hc2 Hm2) as (o2 & Ho2 & Hl2).
      apply (Hlab _ cur o1 o2 c1 c2 Hlk Hc1 Hc2 Ho1 Ho2). congruence.
    + exfalso. apply list_elem_of_singleton in Hc2 as ->.
      rewrite Hnew in Hm2. injection Hm2 as <-. simpl in Hl.
      destruct (Hold _ _ _ _ Hlk Hc1 Hm1) as (o1 & Ho1 & Hl1).
      destruct (Hmiss c1 Hc1) as (o1' & Ho1' & He).
      apply node_at_Ok in Ho1' as [_ Ho1']. rewrite Ho1 in Ho1'.
      injection Ho1' as <-.
      apply String.eqb_neq in He. congruence.
    + exfalso. apply list_elem_of_singleton in Hc1 as ->.
      rewrite Hnew in Hm1. injection Hm1 as <-. simpl in Hl.
      destruct (Hold _ _ _ _ Hlk Hc2 Hm2) as (o2 & Ho2 & Hl2).
      destruct (Hmiss c2 Hc2) as (o2' & Ho2' & He).
      apply node_at_Ok in Ho2' as [_ Ho2']. rewrite Ho2 in Ho2'.
      injection Ho2' as <-.
      apply String.eqb_neq in He. congruence.
    + apply list_elem_of_singleton in Hc1 as ->.
      apply list_elem_of_singleton in Hc2 as ->. reflexivity.
  - destruct (Hold _ _ _ _ Hx Hc1 Hm1) as (o1 & Ho1 & Hl1).
    destruct (Hold _ _ _ _ Hx Hc2 Hm2) as (o2 & Ho2 & Hl2).
    apply (Hlab _ x o1 o2 c1 c2 Hx Hc1 Hc2 Ho1 Ho2). congruence.
Qed.

Lemma reachable_labels_ok (t : TimerTree) :
  reachable t -> labels_ok (timers t).
Proof.
  induction 1 as [now|fuel now o t t' Hr IH He].
  - intros k n m1 m2 c1 c2 Hk Hc1. destruct k as [|k]; simpl in Hk.
    + injection Hk as <-. inversion Hc1.
    + destruct k; discriminate.
  - pose proof (reachable_nodes_ok t Hr) as Hok.
    destruct (exec_created _ _ _ _ _ He)
      as [Hs|(_ & cur & found & lbl & grps & wul & Hcur & Hf & Hneg & Hs)].
    + apply (labels_ok_shape _ _ Hs IH).
    + apply (labels_ok_shape _ _ Hs).
      apply (labels_ok_with_new_child t cur found); assumption.
Qed.

Lemma parents_ok_shape (ts ts' : list TimerData) :
  shape <$> ts' = shape <$> ts -> parents_ok ts -> parents_ok ts'.
Proof.
  intros Hs Hok k m' Hk Hk0.
  destruct (shape_lookup ts' ts _ _ (eq_sym Hs) Hk) as (m & Hm & Hsm).
  destruct (Hok k m Hm Hk0) as (Hp & p & Hpl & Hin).
  destruct (shape_lookup ts ts' _ _ Hs Hpl) as (p' & Hp' & Hsp).
  unfold shape in Hsm, Hsp.
  injection Hsm as Hpm _ _ _ _ _. injection Hsp as _ _ _ _ _ Hcp.
  rewrite <- Hpm. split; [exact Hp|].
  exists p'. split; [exact Hp' | rewrite Hcp; exact Hin].
Qed.

Lemma parents_ok_with_new_child (t : TimerTree) (cur : TimerData)
    (lbl : string) (grps : list string) (wul : string) :
  nodes_ok (timers t) -> parents_ok (timers t) ->
  node_at (timers t) (currentId t) = Ok cur ->
  parents_ok (timers (with_new_child t cur (Z.of_nat (length (timers t)))
                        lbl grps wul)).
Proof.
  intros Hok Hpar Hcur.
  set (i := Z.of_nat (length (timers t))).
  set (t' := with_new_child t cur i lbl grps wul).
  pose proof Hcur as Hcur'. apply node_at_Ok in Hcur' as [Hc0 Hlk].
  destruct (Hok _ _ Hlk) as (Hidcur & _).
  (* an old node is still there and lists at least the children it had *)
  assert (Hold : forall (k : nat) (p : TimerData) (c : Z),
            timers t !! k = Some p -> c ∈ child_ids p ->
            exists p', timers t' !! k = Some p' /\ c ∈ child_ids p').
  { intros k p c Hp Hc.
    destruct (with_new_child_old t cur i lbl grps wul _ _ Hcur Hp)
      as (p' & Hp' & _ & Hne & Heq).
    exists p'. split; [exact Hp'|].
    destruct (decide (k = Z.to_nat (currentId t))) as [Hk|Hk].
    - rewrite (Heq Hk). rewrite Hk, Hlk in Hp. injection Hp as <-.
      simpl. apply elem_of_app. left. exact Hc.
    - rewrite (Hne Hk). exact Hc. }
  assert (Holdnode : forall (k : nat) (m : TimerData),
            timers t !! k = Some m -> k <> 0%nat ->
            0 <= parent_id m
            /\ exists p', timers t' !! Z.to_nat (parent_id m) = Some p'
                          /\ Z.of_nat k ∈ child_ids p').
  { intros k m Hm Hk0. destruct (Hpar k m Hm Hk0) as (Hp & p & Hpl & Hin).
    split; [exact Hp|]. apply (Hold _ p _ Hpl Hin). }
  intros k x Hk Hk0.
  destruct (with_new_child_lookup t cur i lbl grps wul k x Hcur Hk)
    as [[-> ->]|[(-> & -> & Hcurk)|[Hne Hx]]].
  - simpl. split; [lia|].
    exists (with_child cur i). split.
    + rewrite Hidcur, Nat2Z.id.
      destruct (with_new_child_old t cur i lbl grps wul _ _ Hcur Hlk)
        as (p' & Hp' & _ & _ & Heq).
      rewrite (Heq eq_refl) in Hp'. exact Hp'.
    + simpl. apply elem_of_app. right. apply list_elem_of_singleton.
      reflexivity.
  - apply (Holdnode _ cur Hlk Hk0).
  - apply (Holdnode _ x Hx Hk0).
Qed.

Lemma reachable_parents_ok (t : TimerTree) :
  reachable t -> parents_ok (timers t).
Proof.
  induction 1 as [now|fuel now o t t' Hr IH He].
  - intros k m Hk Hk0. destruct k as [|k]; [contradiction|].
    simpl in Hk. destruct k; discriminate.
  - pose proof (reachable_nodes_ok t Hr) as Hok.
    destruct (exec_created _ _ _ _ _ He)
      as [Hs|(_ & cur & found & lbl & grps & wul & Hcur & _ & _ & Hs)].
    + apply (parents_ok_shape _ _ Hs IH).
    + apply (parents_ok_shape _ _ Hs).
      apply (parents_ok_with_new_child t cur); assumption.
Qed.

(** X7.  On a reachable tree no two children of one node carry the same
    label: [initializeTimer] appends a child only after [getChildId] found
    none with that label, and no call relabels a node. *)
Theorem sibling_labels_are_distinct
    (t : TimerTree) (k : nat) (n m1 m2 : TimerData) (c1 c2 : Z) :
  reachable t ->
  timers t !! k = Some n ->
  c1 ∈ child_ids n -> c2 ∈ child_ids n ->
  node_at (timers t) c1 = Ok m1 -> node_at (timers t) c2 = Ok m2 ->
  label m1 = label m2 ->
  c1 = c2.
Proof.
  intros Hr Hk Hc1 Hc2 Hm1 Hm2 Hl.
  apply node_at_Ok in Hm1 as [_ Hm1]. apply node_at_Ok in Hm2 as [_ Hm2].
  apply (reachable_labels_ok t Hr k n m1 m2 c1 c2); assumption.
Qed.

(** X8.  On a reachable tree the child lists and the parent ids describe
    the same tree: a node other than the root is listed in [child_ids] of
    node [k] exactly when its [parent_id] is [k]; its parent id is never
    [-1] and is smaller than its own id, so the parent links cannot cycle. *)
Theorem children_and_parents_agree
    (t : TimerTree) (k c : nat) (n m : TimerData) :
  reachable t ->
  timers t !! k = Some n -> timers t !! c = Some m -> c <> 0%nat ->
  0 <= parent_id m < Z.of_nat c
  /\ (Z.of_nat c ∈ child_ids n <-> parent_id m = Z.of_nat k).
Proof.
  intros Hr Hk Hc Hc0.
  destruct (reachable_parents_ok t Hr c m Hc Hc0) as (Hp & p & Hpl & Hin).
  destruct (reachable_nodes_ok t Hr _ _ Hc) as (_ & Hlt & _).
  split; [lia|]. split.
  - intros Hlist.
    destruct (reachable_nodes_ok t Hr _ _ Hk) as (_ & _ & Hkids & _).
    destruct (Hkids _ Hlist) as (_ & m' & Hm' & Hpm).
    rewrite Nat2Z.id, Hc in Hm'. injection Hm' as <-. exact Hpm.
  - intros Hpar. rewrite Hpar, Nat2Z.id, Hk in Hpl.
    injection Hpl as <-. exact Hin.
Qed.

(** ** Looking up, creating and starting a child *)

Lemma find_child_returns (ts : list TimerData) (lbl : string) (cs : list Z) :
  (forall c, c ∈ cs -> exists m, node_at ts c = Ok m) ->
  exists r, find_child ts lbl cs = Ok r.
Proof.
  induction cs as [|c cs IH]; intros Hall; simpl.
  - exists (-1). reflexivity.
  - destruct (Hall c) as [m Hm]; [left|]. rewrite Hm, bind_of_Ok.
    destruct (String.eqb (label m) lbl).
    + exists c. reflexivity.
    + apply IH. intros c' Hc'. apply Hall. right. exact Hc'.
Qed.

Lemma find_child_on_reachable (t : TimerTree) (cur : TimerData)
    (lbl : string) :
  nodes_ok (timers t) ->
  node_at (timers t) (currentId t) = Ok cur ->
  exists r, find_child (timers t) lbl (child_ids cur) = Ok r.
Proof.
  intros Hok Hcur. apply find_child_returns. intros c Hc.
  destruct (child_of_cursor t cur c Hok Hcur Hc) as (Hc0 & m & Hm & _).
  exists m. apply node_at_Ok. split; assumption.
Qed.

(** X9.  On a reachable tree with a current timer, [getChildId(label)]
    returns.  It returns [-1] when no child of the current node has that
    label, and otherwise the id of a child of the current node that has it,
    which is the only such child. *)
Theorem getChildId_finds_the_child
    (lbl : string) (t : TimerTree) :
  reachable t ->
  currentId t <> -1 ->
  exists cur r,
    node_at (timers t) (currentId t) = Ok cur
    /\ getChildId lbl t = Ok r
    /\ ((r = -1
         /\ forall c m, c ∈ child_ids cur -> node_at (timers t) c = Ok m ->
              label m <> lbl)
        \/ (r ∈ child_ids cur
            /\ (exists m, node_at (timers t) r = Ok m /\ label m = lbl
                          /\ parent_id m = currentId t)
            /\ forall c m, c ∈ child_ids cur -> node_at (timers t) c = Ok m ->
                 label m = lbl -> c = r)).
Proof.
  intros Hr Hcur.
  pose proof (reachable_nodes_ok t Hr) as Hok.
  pose proof (reachable_cursor_in_range t Hr) as Hrange.
  destruct (lookup_lt_is_Some_2 (timers t) (Z.to_nat (currentId t)))
    as [cur Hlk]; [lia|].
  assert (Hnode : node_at (timers t) (currentId t) = Ok cur)
    by (apply node_at_Ok; split; [lia | exact Hlk]).
  destruct (find_child_on_reachable t cur lbl Hok Hnode) as [r Hfind].
  exists cur, r. split; [exact Hnode|]. split.
  { unfold getChildId. rewrite Hnode, bind_of_Ok. exact Hfind. }
  destruct (decide (r < 0)) as [Hneg|Hpos].
  - left. destruct (find_child_missing _ _ _ _ Hfind Hneg) as [-> Hmiss].
    split; [reflexivity|].
    intros c m Hc Hm. destruct (Hmiss c Hc) as (m' & Hm' & He).
    rewrite Hm in Hm'. injection Hm' as <-.
    apply String.eqb_neq. exact He.
  - right. destruct (find_child_found _ _ _ _ Hfind ltac:(lia))
      as (Hin & m & Hm & Hl).
    split; [exact Hin|]. split.
    + exists m. split; [exact Hm|]. split; [exact Hl|].
      destruct (child_of_cursor t cur r Hok Hnode Hin) as (_ & m' & Hm' & Hp & _).
      apply node_at_Ok in Hm as [_ Hm]. rewrite Hm in Hm'.
      injection Hm' as <-. exact Hp.
    + intros c m' Hc Hm' Hl'.
      apply node_at_Ok in Hm as [_ Hm]. apply node_at_Ok in Hm' as [_ Hm'].
      apply (reachable_labels_ok t Hr _ cur m' m c r Hlk Hc Hin Hm' Hm).
      congruence.
Qed.

(** What [initializeTimer] hands back: a node with the label asked for,
    whose parent is the current node and whose id is larger. *)
Lemma initializeTimer_child (lbl : string) (grps : list string)
    (wul : string) (t t1 : TimerTree) (i : Z) :
  nodes_ok (timers t) ->
  initializeTimer lbl grps wul t = Ok (i, t1) ->
  0 <= currentId t < i
  /\ currentId t1 = currentId t
  /\ (exists m, timers t1 !! Z.to_nat i = Some m
                /\ label m = lbl /\ parent_id m = currentId t /\ id m = i)
  /\ (exists cur', timers t1 !! Z.to_nat (currentId t) = Some cur'
                   /\ i ∈ child_ids cur')
  /\ (forall k n, timers t !! k = Some n ->
        exists n', timers t1 !! k = Some n' /\ timing n' = timing n).
Proof.
  intros Hok Hi.
  destruct (initializeTimer_inv _ _ _ _ _ _ Hi)
    as (cur & found & Hcur & Hfind & [(Hpos & -> & ->)|(_ & Hlen & _ & ->)]).
  - destruct (find_child_found _ _ _ _ Hfind Hpos) as (Hin & m & Hm & Hl).
    destruct (child_of_cursor t cur found Hok Hcur Hin)
      as (_ & m' & Hm' & Hp & Hid).
    apply node_at_Ok in Hm as [_ Hm]. rewrite Hm in Hm'. injection Hm' as <-.
    pose proof Hcur as Hcur'. apply node_at_Ok in Hcur' as [Hc0 Hlk].
    destruct (Hok _ _ Hlk) as (_ & _ & Hkids & _).
    destruct (Hkids found Hin) as [Hlt _].
    split; [lia|]. split; [reflexivity|].
    split; [exists m; repeat split; assumption|].
    split; [exists cur; split; assumption|].
    intros k n Hn. exists n. split; [exact Hn | reflexivity].
  - pose proof Hcur as Hcur'. apply node_at_Ok in Hcur' as [Hc0 Hlk].
    destruct (Hok _ _ Hlk) as (Hidcur & _).
    pose proof (lookup_lt_Some _ _ _ Hlk) as Hlt.
    split; [lia|]. split; [reflexivity|]. split; [|split].
    + exists (fresh_node cur i lbl grps wul). split.
      * rewrite Hlen, Nat2Z.id, <- Hlen. apply with_new_child_new.
      * simpl. split; [reflexivity|]. split; [lia | reflexivity].
    + destruct (with_new_child_old t cur i lbl grps wul _ _ Hcur Hlk)
        as (p' & Hp' & _ & _ & Heq).
      exists p'. split; [exact Hp'|]. rewrite (Heq eq_refl). simpl.
      apply elem_of_app. right. apply list_elem_of_singleton. reflexivity.
    + intros k n Hn.
      destruct (with_new_child_old t cur i lbl grps wul _ _ Hcur Hn)
        as (n' & Hn' & _ & Hne & Heq).
      exists n'. split; [exact Hn'|].
      destruct (decide (k = Z.to_nat (currentId t))) as [Hk|Hk].
      * rewrite (Heq Hk). rewrite Hk, Hlk in Hn. injection Hn as <-.
        reflexivity.
      * rewrite (Hne Hk). reflexivity.
Qed.

(** X10.  On a reachable tree with a current timer and at most [INT_MAX]
    nodes, [initializeTimer(label, groups, workUnit)] returns.  The id it
    returns is larger than the current id and names a node with that label
    whose parent is the current node and which the current node lists as a
    child.  The cursor does not move and no existing node's timing state
    (active flag, start time, accumulated time, call count) changes. *)
Theorem initializeTimer_returns_a_child
    (lbl : string) (grps : list string) (wul : string) (t : TimerTree) :
  reachable t ->
  currentId t <> -1 ->
  Z.of_nat (length (timers t)) <= INT_MAX ->
  exists i t1,
    initializeTimer lbl grps wul t = Ok (i, t1)
    /\ currentId t < i
    /\ currentId t1 = currentId t
    /\ (exists m, node_at (timers t1) i = Ok m
                  /\ label m = lbl /\ parent_id m = currentId t)
    /\ (exists cur', node_at (timers t1) (currentId t) = Ok cur'
                     /\ i ∈ child_ids cur')
    /\ (forall k n, timers t !! k = Some n ->
          exists n', timers t1 !! k = Some n' /\ timing n' = timing n).
Proof.
  intros Hr Hcur Hcap.
  pose proof (reachable_nodes_ok t Hr) as Hok.
  pose proof (reachable_cursor_in_range t Hr) as Hrange.
  destruct (lookup_lt_is_Some_2 (timers t) (Z.to_nat (currentId t)))
    as [cur Hlk]; [lia|].
  assert (Hnode : node_at (timers t) (currentId t) = Ok cur)
    by (apply node_at_Ok; split; [lia | exact Hlk]).
  destruct (find_child_on_reachable t cur lbl Hok Hnode) as [r Hfind].
  assert (Hret : exists i t1, initializeTimer lbl grps wul t = Ok (i, t1)).
  { assert (Hget : getChildId lbl t = Ok r).
    { unfold getChildId. rewrite Hnode, bind_of_Ok. exact Hfind. }
    unfold initializeTimer. rewrite Hget, bind_of_Ok.
    destruct (decide (r < 0)); [|eexists _, _; reflexivity].
    destruct (decide (INT_MAX < Z.of_nat (length (timers t)))); [lia|].
    rewrite Hnode, bind_of_Ok, TimerData_new_Some. eexists _, _. reflexivity. }
  destruct Hret as (i & t1 & Hi).
  destruct (initializeTimer_child _ _ _ _ _ _ Hok Hi)
    as (Hlt & Hc1 & (m & Hm & Hl & Hp & _) & (cur' & Hcur' & Hin) & Htime).
  exists i, t1. split; [exact Hi|]. split; [lia|]. split; [exact Hc1|].
  split; [|split; [|exact Htime]].
  - exists m. split; [apply node_at_Ok; split; [lia | exact Hm]|].
    split; assumption.
  - exists cur'. split; [apply node_at_Ok; split; [lia | exact Hcur']|].
    exact Hin.
Qed.

(** X11.  On a reachable tree, a [start(label)] that returns returns true
    (the id it converts to [bool] is never 0).  The new current node has
    that label, its parent is the node that was current, its id is larger,
    and it is running with the start time just read. *)
Theorem start_label_enters_the_child
    (now : double) (lbl : string) (t t' : TimerTree) (b : bool) :
  reachable t ->
  start_label now lbl t = Ok (b, t') ->
  b = true
  /\ 0 <= currentId t < currentId t'
  /\ exists m, node_at (timers t') (currentId t') = Ok m
       /\ label m = lbl /\ parent_id m = currentId t
       /\ active m = true /\ start_time m = now.
Proof.
  intros Hr Hs. pose proof (reachable_nodes_ok t Hr) as Hok.
  unfold start_label in Hs.
  apply bind_Ok in Hs as ([i t1] & Hi & Hs).
  apply bind_Ok in Hs as ([ts ret] & Hc & [= <- <-]). simpl.
  destruct (initializeTimer_child _ _ _ _ _ _ Hok Hi)
    as (Hlt & _ & (m & Hm & Hl & Hp & Hid) & _).
  apply call_at_inv in Hc as (Hi0 & n & Hn & -> & ->).
  rewrite Hm in Hn. injection Hn as <-.
  change ((TimerData_start now m).2) with (id m).
  split; [|split; [exact Hlt|]].
  - rewrite bool_decide_eq_false_2 by lia. reflexivity.
  - exists (TimerData_start now m).1. split.
    + apply node_at_Ok. split; [exact Hi0|].
      apply list_lookup_insert_eq. apply (lookup_lt_Some _ _ _ Hm).
    + repeat split; assumption.
Qed.

(** ** The structural hash *)

Lemma node_at_never_OutOfFuel (ts : list TimerData) (i : Z) :
  node_at ts i <> OutOfFuel.
Proof.
  unfold node_at. destruct (decide (0 <= i)); [|discriminate].
  destruct (ts !! Z.to_nat i); discriminate.
Qed.

Lemma node_at_shape (ts ts' : list TimerData) (i : Z) :
  shape <$> ts' = shape <$> ts ->
  (exists n n', node_at ts i = Ok n /\ node_at ts' i = Ok n'
                /\ shape n' = shape n)
  \/ (node_at ts i = Fault /\ node_at ts' i = Fault).
Proof.
  intros Hs. unfold node_at.
  destruct (decide (0 <= i)) as [Hi|Hi]; [|right; split; reflexivity].
  destruct (ts !! Z.to_nat i) as [n|] eqn:Hn.
  - left. destruct (shape_lookup ts ts' _ _ Hs Hn) as (n' & Hn' & Hsn).
    exists n, n'. rewrite Hn'.
    split; [reflexivity|]. split; [reflexivity | exact Hsn].
  - right. apply lookup_ge_None in Hn.
    rewrite <- (shape_length _ _ Hs) in Hn.
    apply lookup_ge_None in Hn. rewrite Hn. split; reflexivity.
Qed.

Lemma TimerData_getHash_shape (n n' : TimerData) :
  shape n' = shape n -> TimerData_getHash n' = TimerData_getHash n.
Proof.
  unfold shape, TimerData_getHash. intros [= _ _ -> -> -> _]. reflexivity.
Qed.

Lemma getHash_shape (ts ts' : list TimerData) (c1 c2 : Z) (i : Z) :
  shape <$> ts' = shape <$> ts ->
  getHash i {| timers := ts'; currentId := c1 |}
  = getHash i {| timers := ts; currentId := c2 |}.
Proof.
  intros Hs. unfold getHash. simpl.
  destruct (node_at_shape ts ts' i Hs)
    as [(n & n' & -> & -> & Hsn)|[-> ->]]; [|reflexivity].
  rewrite !bind_of_Ok.
  rewrite (TimerData_getHash_shape _ _ Hsn).
  assert (Hc : child_ids n' = child_ids n).
  { unfold shape in Hsn. injection Hsn as _ _ _ _ _ Hc. exact Hc. }
  rewrite Hc.
  assert (Hloop : forall cs acc,
    for_each (fun hashValue childId =>
                c ← node_at ts' childId;
                Ok ((hashValue + TimerData_getHash c) mod ULONG_MOD)) cs acc
    = for_each (fun hashValue childId =>
                c ← node_at ts childId;
                Ok ((hashValue + TimerData_getHash c) mod ULONG_MOD)) cs acc).
  { induction cs as [|c cs IH]; intros acc; simpl; [reflexivity|].
    destruct (node_at_shape ts ts' c Hs)
      as [(m & m' & -> & -> & Hsm)|[-> ->]]; [|reflexivity].
    rewrite !bind_of_Ok, (TimerData_getHash_shape _ _ Hsm). apply IH. }
  rewrite Hloop. reflexivity.
Qed.

(** X12.  On a reachable tree [getHash(id)] returns for every id of a
    node, and the value is at least 0 and below [INT_MAX]: it fits the
    [int] it is returned as and is never negative. *)
Theorem getHash_returns_in_int_range (i : Z) (t : TimerTree) (n : TimerData) :
  reachable t ->
  node_at (timers t) i = Ok n ->
  exists r, getHash i t = Ok r /\ 0 <= r < INT_MAX.
Proof.
  intros Hr Hn. pose proof (reachable_nodes_ok t Hr) as Hok.
  unfold getHash. rewrite Hn, bind_of_Ok.
  apply node_at_Ok in Hn as [Hi Hk].
  destruct (Hok _ _ Hk) as (_ & _ & Hkids & _).
  assert (Hloop : forall cs acc,
    (forall c, c ∈ cs -> c ∈ child_ids n) ->
    exists h, for_each (fun hashValue childId =>
                c ← node_at (timers t) childId;
                Ok ((hashValue + TimerData_getHash c) mod ULONG_MOD)) cs acc
              = Ok h).
  { induction cs as [|c cs IH]; intros acc Hsub; simpl.
    - exists acc. reflexivity.
    - destruct (Hkids c) as (Hc & m & Hm & _); [apply Hsub; left|].
      rewrite (proj2 (node_at_Ok _ c m)) by (split; [lia | exact Hm]).
      rewrite bind_of_Ok. apply IH. intros c' Hc'. apply Hsub. right.
      exact Hc'. }
  destruct (Hloop (child_ids n) (TimerData_getHash n mod ULONG_MOD))
    as [h Hh]; [intros c Hc; exact Hc|].
  rewrite Hh, bind_of_Ok.
  destruct (decide (h = 0)).
  - exists 1. split; [reflexivity | unfold INT_MAX; lia].
  - exists (h mod INT_MAX). split; [reflexivity|].
    apply Z.mod_pos_bound. unfold INT_MAX. lia.
Qed.

(** X13.  The hash is structural: a call that creates no node
    ([start(id)], the stops, [resetTime], [shiftActiveStartTime]) changes
    the timing state only, and [getHash(id)] gives afterwards what it gave
    before, for every id. *)
Theorem getHash_unchanged_by_timing_calls
    (fuel : nat) (now : double) (o : op) (i : Z) (t t' : TimerTree) :
  creates o = false ->
  exec fuel now o t = Ok t' ->
  getHash i t' = getHash i t.
Proof.
  intros Hc He. pose proof (exec_keeps_shape _ _ _ _ _ Hc He) as Hs.
  destruct t as [ts c], t' as [ts' c']. apply getHash_shape. exact Hs.
Qed.

(** ** Hierarchical names, in general *)

Lemma getFullLabel_render (fuel : nat) (i : Z) (reverse : bool)
    (t : TimerTree) (ls : list string) :
  collect_labels fuel (timers t) i [] = Ok ls ->
  getFullLabel fuel i reverse t
  = Ok (if reverse then render_reverse ls else render_forward ls).
Proof.
  intros Hc. unfold getFullLabel. rewrite Hc, bind_of_Ok.
  destruct reverse; reflexivity.
Qed.

Lemma render_forward_cons (l : string) (ls : list string) :
  render_forward (l :: ls)
  = String.append (String.append (render_forward ls) "/") l.
Proof.
  unfold render_forward. simpl rev. rewrite fold_left_app. reflexivity.
Qed.

Lemma render_reverse_from (ls : list string) (a : string) :
  fold_left (fun fullLabel l =>
               String.append (String.append fullLabel l) backslash) ls a
  = String.append a (render_reverse ls).
Proof.
  unfold render_reverse. revert a.
  induction ls as [|x ls IH]; intros a.
  - simpl. induction a as [|ch a IHa]; [reflexivity|].
    change (String ch a = String ch (String.append a "")).
    rewrite <- IHa. reflexivity.
  - simpl. rewrite (IH (String.append (String.append a x) backslash)).
    rewrite (IH (String.append (String.append "" x) backslash)).
    change (String.append "" x) with x.
    rewrite !append_assoc. reflexivity.
Qed.

Lemma render_reverse_cons (l : string) (ls : list string) :
  render_reverse (l :: ls)
  = String.append (String.append l backslash) (render_reverse ls).
Proof.
  unfold render_reverse at 1. simpl. apply render_reverse_from.
Qed.

(** On a tree that satisfies the invariant the walk up the parent links
    ends: from node [i] it needs at most [i] rounds. *)
Lemma collect_labels_returns (ts : list TimerData) :
  nodes_ok ts ->
  forall (d : nat) (i : Z),
    i < Z.of_nat (length ts) -> i <= Z.of_nat d ->
    exists ls, forall fuel acc, (d <= fuel)%nat ->
      collect_labels fuel ts i acc = Ok (acc ++ ls).
Proof.
  intros Hok. induction d as [|d IH]; intros i Hlen Hd.
  - exists []. intros fuel acc _. rewrite app_nil_r.
    destruct fuel; simpl; destruct (decide (i > 0)); try lia; reflexivity.
  - destruct (decide (i > 0)) as [Hpos|Hnpos].
    + destruct (lookup_lt_is_Some_2 ts (Z.to_nat i)) as [n Hn]; [lia|].
      destruct (Hok _ _ Hn) as (_ & Hpar & _).
      destruct (IH (parent_id n)) as [ls Hls]; [lia | lia |].
      exists (label n :: ls). intros fuel acc Hfuel.
      destruct fuel as [|fuel]; [lia|]. simpl.
      destruct (decide (i > 0)); [|lia].
      rewrite (proj2 (node_at_Ok ts i n)) by (split; [lia | exact Hn]).
      rewrite bind_of_Ok, (Hls fuel) by lia.
      rewrite <- app_assoc. reflexivity.
    + exists []. intros fuel acc _. rewrite app_nil_r.
      destruct fuel; simpl; destruct (decide (i > 0)); try lia; reflexivity.
Qed.

(** X14.  On a reachable tree [getFullLabel] returns for every node, and
    names compose along the parent links: for a node other than the root,
    the forward name is the forward name of its parent, a slash and its own
    label; the reverse name is its own label, a backslash and the reverse
    name of its parent.  As many rounds as there are nodes are enough. *)
Theorem getFullLabel_extends_the_parent
    (fuel : nat) (i : Z) (t : TimerTree) (n : TimerData) :
  reachable t ->
  node_at (timers t) i = Ok n -> 0 < i ->
  (length (timers t) <= fuel)%nat ->
  exists forward reverse,
    getFullLabel fuel (parent_id n) false t = Ok forward
    /\ getFullLabel fuel (parent_id n) true t = Ok reverse
    /\ getFullLabel fuel i false t
       = Ok (String.append (String.append forward "/") (label n))
    /\ getFullLabel fuel i true t
       = Ok (String.append (String.append (label n) backslash) reverse).
Proof.
  intros Hr Hn Hi Hfuel. pose proof (reachable_nodes_ok t Hr) as Hok.
  pose proof Hn as Hn'. apply node_at_Ok in Hn' as [_ Hk].
  destruct (Hok _ _ Hk) as (_ & Hpar & _).
  pose proof (lookup_lt_Some _ _ _ Hk) as Hlt.
  destruct (collect_labels_returns (timers t) Hok
              (length (timers t) - 1) (parent_id n)) as [ls Hls];
    [lia | lia |].
  assert (Hp : collect_labels fuel (timers t) (parent_id n) [] = Ok ls).
  { rewrite (Hls fuel []) by lia. reflexivity. }
  assert (Hself : collect_labels fuel (timers t) i [] = Ok (label n :: ls)).
  { destruct fuel as [|fuel]; [lia|]. simpl.
    destruct (decide (i > 0)); [|lia].
    rewrite Hn, bind_of_Ok, (Hls fuel) by lia. reflexivity. }
  exists (render_forward ls), (render_reverse ls).
  split; [apply (getFullLabel_render _ _ false _ _ Hp)|].
  split; [apply (getFullLabel_render _ _ true _ _ Hp)|].
  split.
  - rewrite (getFullLabel_render _ _ false _ _ Hself).
    rewrite render_forward_cons. reflexivity.
  - rewrite (getFullLabel_render _ _ true _ _ Hself).
    rewrite render_reverse_cons. reflexivity.
Qed.

Lemma collect_labels_prefix (ts ts' : list TimerData) :
  nodes_ok ts ->
  (identity <$> ts) `prefix_of` (identity <$> ts') ->
  forall (fuel : nat) (i : Z) (acc : list string),
    i < Z.of_nat (length ts) ->
    collect_labels fuel ts' i acc = collect_labels fuel ts i acc.
Proof.
  intros Hok Hp. induction fuel as [|fuel IH]; intros i acc Hlen; simpl.
  - reflexivity.
  - destruct (decide (i > 0)) as [Hpos|]; [|reflexivity].
    destruct (lookup_lt_is_Some_2 ts (Z.to_nat i)) as [n Hn]; [lia|].
    destruct (identity_prefix_lookup _ _ _ _ Hp Hn) as (n' & Hn' & Hid).
    rewrite (proj2 (node_at_Ok ts i n)) by (split; [lia | exact Hn]).
    rewrite (proj2 (node_at_Ok ts' i n')) by (split; [lia | exact Hn']).
    rewrite !bind_of_Ok.
    unfold identity in Hid. injection Hid as _ Hpid Hl _ _.
    rewrite Hpid, Hl.
    destruct (Hok _ _ Hn) as (_ & Hpar & _).
    apply IH. lia.
Qed.

(** X15.  The name of a node never changes: on a reachable tree, after any
    call that returns, [getFullLabel] gives for every id that was in the
    tree (and for the root and negative ids) what it gave before, in both
    orders and for every number of rounds. *)
Theorem getFullLabel_is_stable
    (fuel fuel' : nat) (now : double) (o : op) (i : Z) (reverse : bool)
    (t t' : TimerTree) :
  reachable t ->
  exec fuel' now o t = Ok t' ->
  i < Z.of_nat (length (timers t)) ->
  getFullLabel fuel i reverse t' = getFullLabel fuel i reverse t.
Proof.
  intros Hr He Hi. unfold getFullLabel.
  rewrite (collect_labels_prefix (timers t) (timers t')
             (reachable_nodes_ok t Hr)
             (exec_identity_prefix _ _ _ _ _ He) fuel i [] Hi).
  reflexivity.
Qed.

(** ** The group of the root *)

(** X16.  The root is in group "Total" for good, so on every reachable tree
    [getGroupTime("Total", 0)] returns at once what [getTime(0)] returns,
    the average time of the root; no child is visited. *)
Theorem getGroupTime_Total_is_getTime_of_root (fuel : nat) (t : TimerTree) :
  reachable t ->
  exists r, node_at (timers t) 0 = Ok r
    /\ getTime 0 t = Ok (TimerData_getAverageTime r)
    /\ getGroupTime (S fuel) "Total" 0 t = Ok (TimerData_getAverageTime r).
Proof.
  intros Hr. destruct (reachable_root t Hr) as (r & Hr0 & Hid).
  assert (Hn : node_at (timers t) 0 = Ok r)
    by (apply node_at_Ok; split; [lia | exact Hr0]).
  exists r. split; [exact Hn|]. split.
  - unfold getTime. rewrite Hn. reflexivity.
  - simpl. rewrite Hn, bind_of_Ok.
    unfold identity in Hid. injection Hid as _ _ _ Hg _. rewrite Hg.
    reflexivity.
Qed.

(** ** start(label) as initializeTimer and start(id) *)

(** X17.  On a reachable tree [start(label)] is [initializeTimer(label, {},
    "")] followed by [start(id)] on the id it returned: the same state and
    the same result, true. *)
Theorem start_label_is_initialize_then_start_id
    (now : double) (lbl : string) (t t1 : TimerTree) (i : Z) :
  reachable t ->
  initializeTimer lbl [] "" t = Ok (i, t1) ->
  start_label now lbl t = start_id now i t1
  /\ exists t2, start_id now i t1 = Ok (true, t2) /\ currentId t2 = i.
Proof.
  intros Hr Hi. pose proof (reachable_nodes_ok t Hr) as Hok.
  destruct (initializeTimer_child _ _ _ _ _ _ Hok Hi)
    as (Hlt & _ & (m & Hm & _ & _ & Hid) & _).
  assert (Hn : node_at (timers t1) i = Ok m)
    by (apply node_at_Ok; split; [lia | exact Hm]).
  assert (Hs : start_id now i t1
               = Ok (true,
                     {| timers := <[Z.to_nat i := (TimerData_start now m).1]>
                                    (timers t1);
                        currentId := i |})).
  { unfold start_id, call_at. rewrite Hn, !bind_of_Ok.
    change ((TimerData_start now m).2) with (id m). rewrite Hid.
    rewrite bool_decide_eq_true_2 by reflexivity. reflexivity. }
  split.
  - rewrite Hs. unfold start_label, call_at.
    rewrite Hi, bind_of_Ok. cbv beta iota. rewrite Hn, !bind_of_Ok.
    change ((TimerData_start now m).2) with (id m). rewrite Hid.
    rewrite bool_decide_eq_false_2 by lia. reflexivity.
  - eexists. split; [exact Hs | reflexivity].
Qed.

(** ** Nested start/stop sequences: the cursor comes back *)

(** A nested sequence that ran to its end is one in which every call
    returned. *)
Lemma nested_calls_completed (start_ok : op -> TimerTree -> bool)
    (fuel : nat) (cs : list (double * op)) :
  forall (opened : list Z) (t t' : TimerTree),
    nested_calls_with start_ok fuel cs opened t = true ->
    run fuel cs t = Ok t' ->
    lifo_nested_with start_ok fuel cs opened t = true.
Proof.
  induction cs as [|[now o] cs IH]; intros opened t t' Hn Hrun.
  - exact Hn.
  - simpl in Hn, Hrun. simpl.
    apply bind_Ok in Hrun as (t1 & He & Hrun).
    rewrite He in Hn. rewrite He.
    destruct (is_start o).
    + apply andb_true_iff in Hn as [Hs Hn].
      rewrite Hs. simpl. apply (IH _ _ _ Hn Hrun).
    + destruct opened as [|x opened']; [discriminate|].
      apply andb_true_iff in Hn as [Hchk Hn].
      rewrite Hchk. simpl. apply (IH _ _ _ Hn Hrun).
Qed.

Lemma initializeTimer_returns (lbl : string) (grps : list string)
    (wul : string) (t : TimerTree) (cur : TimerData) :
  nodes_ok (timers t) ->
  node_at (timers t) (currentId t) = Ok cur ->
  Z.of_nat (length (timers t)) <= INT_MAX ->
  exists i t1, initializeTimer lbl grps wul t = Ok (i, t1).
Proof.
  intros Hok Hnode Hcap.
  destruct (find_child_on_reachable t cur lbl Hok Hnode) as [r Hfind].
  assert (Hget : getChildId lbl t = Ok r).
  { unfold getChildId. rewrite Hnode, bind_of_Ok. exact Hfind. }
  unfold initializeTimer. rewrite Hget, bind_of_Ok.
  destruct (decide (r < 0)); [|eexists _, _; reflexivity].
  destruct (decide (INT_MAX < Z.of_nat (length (timers t)))); [lia|].
  rewrite Hnode, bind_of_Ok, TimerData_new_Some. eexists _, _. reflexivity.
Qed.

Lemma cursor_node (t : TimerTree) :
  reachable t -> 0 <= currentId t ->
  exists cur, node_at (timers t) (currentId t) = Ok cur.
Proof.
  intros Hr H0. pose proof (reachable_cursor_in_range t Hr) as Hrange.
  destruct (lookup_lt_is_Some_2 (timers t) (Z.to_nat (currentId t)))
    as [cur Hlk]; [lia|].
  exists cur. apply node_at_Ok. split; [exact H0 | exact Hlk].
Qed.

(** A start of a child of the current timer returns, while there is a
    current timer and room for one more node. *)
Lemma start_call_returns (fuel : nat) (now : double) (o : op)
    (t : TimerTree) :
  reachable t ->
  is_start o = true -> starts_child o t = true ->
  0 <= currentId t ->
  Z.of_nat (length (timers t)) <= INT_MAX ->
  exists t1, exec fuel now o t = Ok t1.
Proof.
  intros Hr Hs Hchild H0 Hcap.
  pose proof (reachable_nodes_ok t Hr) as Hok.
  destruct o; try discriminate; simpl.
  - unfold starts_child in Hchild.
    destruct (node_at (timers t) (currentId t)) as [cur| |] eqn:Hcur;
      try discriminate.
    apply bool_decide_eq_true in Hchild.
    destruct (child_of_cursor t cur i Hok Hcur Hchild) as (Hi & m & Hm & _).
    unfold start_id, call_at.
    rewrite (proj2 (node_at_Ok _ i m)) by (split; assumption).
    eexists. reflexivity.
  - destruct (cursor_node t Hr H0) as [cur Hcur].
    destruct (initializeTimer_returns lbl [] "" t cur Hok Hcur Hcap)
      as (i & t1 & Hi).
    destruct (initializeTimer_child _ _ _ _ _ _ Hok Hi)
      as (Hlt & _ & (m & Hm & _) & _).
    unfold start_label, call_at. rewrite Hi, bind_of_Ok. cbv beta iota.
    rewrite (proj2 (node_at_Ok _ i m)) by (split; [lia | exact Hm]).
    eexists. reflexivity.
Qed.

(** A stop by id or by label returns while there is a current timer. *)
Lemma stop_call_returns (fuel : nat) (now : double) (o : op)
    (t : TimerTree) :
  reachable t ->
  is_stop o = true -> takes_work_units o = false ->
  0 <= currentId t ->
  exists t1, exec fuel now o t = Ok t1.
Proof.
  intros Hr Hs Hw H0. destruct (cursor_node t Hr H0) as [cur Hcur].
  destruct o; try discriminate; simpl.
  - rewrite (stop_id_at_cursor now i t cur Hcur). eexists. reflexivity.
  - unfold stop_label. fold (stop_id now 0 t).
    rewrite (stop_id_at_cursor now 0 t cur Hcur). eexists. reflexivity.
Qed.

(** From a reachable tree with a current timer, a nested sequence of child
    starts and of stops by id or by label, short enough for [timers] to stay
    within [INT_MAX] nodes, is one in which every call returns. *)
Lemma nested_child_calls_complete (fuel : nat) (c0 : Z)
    (cs : list (double * op)) :
  forall (opened : list Z) (t : TimerTree),
    reachable t ->
    currentId t = hd c0 opened ->
    linked t opened c0 ->
    0 <= c0 ->
    without_work_units cs = true ->
    Z.of_nat (length (timers t) + length cs) <= INT_MAX ->
    nested_calls_with starts_child fuel cs opened t = true ->
    lifo_nested_with starts_child fuel cs opened t = true.
Proof.
  induction cs as [|[now o] cs IH];
    intros opened t Hr Hcur Hl Hc0 Hw Hcap Hn.
  - exact Hn.
  - pose proof (reachable_nodes_ok t Hr) as Hok.
    assert (H0 : 0 <= currentId t).
    { rewrite Hcur. destruct opened as [|x rest]; [exact Hc0|].
      simpl. simpl in Hl. destruct Hl as [Hx _]. exact Hx. }
    simpl in Hw. apply andb_true_iff in Hw as [Hwo Hw].
    apply negb_true_iff in Hwo.
    simpl length in Hcap. simpl in Hn. simpl.
    destruct (is_start o) eqn:Hs.
    + apply andb_true_iff in Hn as [Hchild Hn].
      destruct (start_call_returns fuel now o t Hr Hs Hchild H0) as [t1 He];
        [lia|].
      rewrite He in Hn. rewrite He, Hchild. simpl.
      destruct (start_enters_child _ _ _ _ _ Hok Hs Hchild He)
        as (Hpos & n & Hlk & Hp & _).
      apply (IH (currentId t1 :: opened) t1);
        [apply (reachable_exec fuel now o t t1 Hr He) | reflexivity | |
         exact Hc0 | exact Hw | | exact Hn].
      * simpl. split; [exact Hpos|].
        split; [|apply (linked_exec _ _ _ _ _ _ _ He Hl)].
        exists n. split; [exact Hlk | congruence].
      * destruct (exec_length_cases _ _ _ _ _ He) as [->|[_ ->]]; lia.
    + destruct opened as [|x opened']; [discriminate|].
      apply andb_true_iff in Hn as [Hchk Hn].
      pose proof Hchk as Hchk'.
      apply andb_true_iff in Hchk' as [Hstop _].
      destruct (stop_call_returns fuel now o t Hr Hstop Hwo H0) as [t1 He].
      rewrite He in Hn. rewrite He, Hchk. simpl.
      destruct (stop_leaves_to_parent _ _ _ _ _ Hstop He)
        as (_ & n & Hlk & Hret).
      pose proof (linked_exec _ _ _ _ _ _ _ He Hl) as Hl1.
      simpl in Hcur, Hl. destruct Hl as (_ & (n' & Hlk' & Hp') & _).
      rewrite Hcur in Hlk. rewrite Hlk in Hlk'. injection Hlk' as <-.
      simpl in Hl1. destruct Hl1 as (_ & _ & Hl1).
      apply (IH opened' t1);
        [apply (reachable_exec fuel now o t t1 Hr He) | congruence |
         exact Hl1 | exact Hc0 | exact Hw | | exact Hn].
      destruct (exec_length_cases _ _ _ _ _ He) as [->|[_ ->]]; lia.
Qed.

(** C6, as the code has it.  Take a balanced, strictly LIFO-nested sequence
    of start and stop calls (each stop names the most recently started timer
    that is not yet stopped) in which every [start(id)] names a direct child
    of the timer that is current at the call, as every [start(label)] does,
    and run it from a reachable tree.  After the whole sequence completes,
    [currentId] is what it was before the sequence began, and every stop of
    the sequence stopped a running timer.  That the sequence completes is
    not assumed by the conditions on the calls; it is proved when no stop
    takes work units, a timer is current at the beginning and [timers] stays
    within [INT_MAX] nodes. *)
Theorem nested_child_calls_restore_cursor
    (fuel : nat) (cs : list (double * op)) (t : TimerTree) :
  reachable t ->
  nested_child_calls fuel cs [] t = true ->
  (forall t', run fuel cs t = Ok t' ->
     currentId t' = currentId t /\ stops_hit_active fuel cs t = true)
  /\ (without_work_units cs = true ->
      currentId t <> -1 ->
      Z.of_nat (length (timers t) + length cs) <= INT_MAX ->
      exists t', run fuel cs t = Ok t' /\ currentId t' = currentId t).
Proof.
  intros Hr Hn. pose proof (reachable_nodes_ok t Hr) as Hok. split.
  - intros t' Hrun.
    pose proof (nested_calls_completed starts_child fuel cs [] t t' Hn Hrun)
      as Hall.
    destruct (lifo_nested_children_run fuel (currentId t) cs [] t
                Hok eq_refl I Hall) as (t'' & Hrun' & Hcur).
    rewrite Hrun in Hrun'. injection Hrun' as <-.
    split; [exact Hcur|].
    apply (lifo_nested_children_stops_active fuel (currentId t) cs [] t);
      [exact Hok | reflexivity | exact I | constructor | exact Hall].
  - intros Hw Hcur Hcap.
    pose proof (reachable_cursor_in_range t Hr) as Hrange.
    assert (H0 : 0 <= currentId t) by lia.
    pose proof (nested_child_calls_complete fuel (currentId t) cs [] t
                  Hr eq_refl I H0 Hw Hcap Hn) as Hall.
    apply (lifo_nested_children_run fuel (currentId t) cs [] t
             Hok eq_refl I Hall).
Qed.

End MoreProperties.


(** * The properties on the concrete trees *)

Section Evaluation.
#[local] Existing Instance ticks.
#[local] Existing Instance poly.

Lemma tree_root_reachable : reachable tree_root.
Proof.
  apply (run_reachable 0 calls_root tree_new);
    [apply reachable_new | reflexivity].
Qed.

Lemma tree_AB_reachable : reachable tree_AB.
Proof.
  apply (run_reachable 0 calls_AB tree_new);
    [apply reachable_new | reflexivity].
Qed.

Lemma tree_groups_reachable : reachable tree_groups.
Proof.
  apply (run_reachable 0 calls_groups tree_new);
    [apply reachable_new | reflexivity].
Qed.

Lemma tree_zero_hash_reachable : reachable tree_zero_hash.
Proof.
  apply (run_reachable 0 calls_zero_hash tree_new);
    [apply reachable_new | reflexivity].
Qed.

(** C3.  [getHash] replaces a raw sum of 0 by 1 and otherwise returns the
    raw sum modulo [INT_MAX]; that remainder is 0 when the raw sum is a
    non-zero multiple of [INT_MAX].  Here node 1 has no children and its own
    hash is 106854 * 2147483647, and [getHash(1)] returns 0. *)
Theorem getHash_returns_zero :
  reachable tree_zero_hash
  /\ (exists n, node_at (timers tree_zero_hash) 1 = Ok n
                /\ child_ids n = []
                /\ TimerData_getHash n = 106854 * INT_MAX)
  /\ getHash 1 tree_zero_hash = Ok 0.
Proof.
  split; [exact tree_zero_hash_reachable|]. split.
  - eexists. split; [reflexivity|]. split; vm_compute; reflexivity.
  - vm_compute. reflexivity.
Qed.

Lemma initializeTimer_twice_same_id_witness :
  exists t1,
    initializeTimer "A" [] "" tree_root = Ok (1, t1)
    /\ currentId t1 = currentId tree_root
    /\ exists t2, initializeTimer "A" ["G"] "cells" t1 = Ok (1, t2)
         /\ length (timers t2) = length (timers t1)
         /\ t2 = t1.
Proof.
  eexists. split; [reflexivity|].
  apply (initializeTimer_twice_same_id "A" [] ["G"] "" "cells" tree_root _ 1).
  reflexivity.
Defined.

Lemma getGroupTime_no_double_counting_witness :
  exists v,
    (forall fuel, (4 <= fuel)%nat ->
       getGroupTime fuel "G" 1 tree_groups = Ok v)
    /\ v = 7.
Proof.
  destruct (getGroupTime_no_double_counting "G" 1 tree_groups _
              tree_groups_reachable eq_refl) as (v & Hv & Hin & _).
  exists v. split; [exact Hv|].
  rewrite Hin; [reflexivity|]. simpl. left.
Defined.

Lemma nested_child_calls_restore_cursor_witness :
  nested_child_calls 0 calls_nested [] tree_root = true
  /\ (exists t', run 0 calls_nested tree_root = Ok t'
                 /\ currentId t' = currentId tree_root)
  /\ stops_hit_active 0 calls_nested tree_root = true.
Proof.
  split; [vm_compute; reflexivity|].
  destruct (nested_child_calls_restore_cursor 0 calls_nested tree_root
              tree_root_reachable eq_refl) as [Hafter Hcompletes].
  split.
  - apply Hcompletes;
      [reflexivity | discriminate | unfold INT_MAX; simpl; lia].
  - apply (Hafter _ eq_refl).
Defined.

(** The conditions on the calls do not make a sequence complete.  A stop
    with work units never returns, whatever the fuel; and from the state the
    constructor leaves, [start(label)] faults. *)
Lemma nested_child_calls_need_not_complete :
  (forall fuel,
     nested_child_calls fuel [(2, StartLabel "A"); (3, StopIdWork 1 1)] []
       tree_root = true
     /\ run fuel [(2, StartLabel "A"); (3, StopIdWork 1 1)] tree_root
        = OutOfFuel)
  /\ nested_child_calls 0 [(2, StartLabel "A"); (3, StopId 1)] [] tree_new
     = true
  /\ run 0 [(2, StartLabel "A"); (3, StopId 1)] tree_new = Fault.
Proof.
  split; [|split; reflexivity].
  intros fuel. unfold nested_child_calls. simpl.
  rewrite stop_id_work_never_returns. split; reflexivity.
Qed.

(** C6, as stated, fails: with the cursor at the root (id 0) of the chain
    root -> A -> B, the sequence start(2); stop(2) is balanced and strictly
    LIFO-nested, and it leaves the cursor at 1, the parent of B. *)
Lemma lifo_nested_start_of_grandchild_moves_cursor :
  reachable tree_AB
  /\ lifo_nested 0 [(10, StartId 2); (11, StopId 2)] [] tree_AB = true
  /\ currentId tree_AB = 0
  /\ (exists t', run 0 [(10, StartId 2); (11, StopId 2)] tree_AB = Ok t'
                 /\ currentId t' = 1
                 /\ currentId t' <> currentId tree_AB)
  /\ nested_calls 0 [(10, StartId 2); (11, StopId 2)] [] tree_AB = true.
Proof.
  split; [exact tree_AB_reachable|].
  split; [vm_compute; reflexivity|].
  split; [reflexivity|].
  split; [|vm_compute; reflexivity].
  eexists. split; [vm_compute; reflexivity|].
  split; [reflexivity | discriminate].
Qed.

Lemma getFullLabel_chain_of_two_witness :
  getFullLabel 2 2 false tree_AB = Ok "/A/B"
  /\ getFullLabel 2 2 true tree_AB
     = Ok (String.append "B" (String.append backslash
             (String.append "A" backslash))).
Proof.
  assert (HA : 0 < 1) by lia.
  assert (HB : 0 < 2) by lia.
  assert (Hfuel : (2 <= 2)%nat) by lia.
  exact (getFullLabel_chain_of_two tree_AB 1 2 _ _ 2
           eq_refl eq_refl eq_refl eq_refl HA HB Hfuel).
Defined.

Lemma resetTime_shiftActiveStartTime_one_level_witness :
  exists t1 t2,
    @resetTime ticks 100 0 tree_groups = Ok t1
    /\ @shiftActiveStartTime ticks 5 0 tree_groups = Ok t2
    /\ timers t1 !! 2%nat = timers tree_groups !! 2%nat
    /\ timers t2 !! 2%nat = timers tree_groups !! 2%nat
    /\ timers t1 !! 3%nat = timers tree_groups !! 3%nat
    /\ timers t2 !! 3%nat = timers tree_groups !! 3%nat.
Proof.
  destruct (@resetTime_shiftActiveStartTime_one_level ticks 100 5 0 tree_groups _
              tree_groups_reachable eq_refl)
    as (t1 & t2 & H1 & H2 & Hframe & _).
  exists t1, t2. split; [exact H1|]. split; [exact H2|].
  assert (Hout : forall j : nat, (2 <= j)%nat ->
            Z.of_nat j <> 0 /\ Z.of_nat j ∉ [1]).
  { intros j Hj. split; [lia|].
    intros Hin. apply list_elem_of_singleton in Hin. lia. }
  destruct (Hframe 2%nat) as [Ha Hb]; [apply Hout; lia | apply Hout; lia |].
  destruct (Hframe 3%nat) as [Hc Hd]; [apply Hout; lia | apply Hout; lia |].
  repeat split; assumption.
Defined.

Lemma ids_dense_and_stable_witness :
  (forall (k : nat) (n : TimerData),
     timers tree_AB !! k = Some n -> id n = Z.of_nat k)
  /\ (forall t', @exec ticks 0 20 (StartLabel "C") tree_AB = Ok t' ->
        (identity <$> timers tree_AB) `prefix_of` (identity <$> timers t')).
Proof.
  destruct (ids_dense_and_stable tree_AB tree_AB_reachable)
    as (Hdense & _ & Hstable).
  split; [exact Hdense|].
  intros t'. apply Hstable.
Defined.

(** ** The further properties on the concrete trees *)

Lemma exec_appends_at_most_one_witness :
  exists t', @exec ticks 0 20 (StartLabel "C") tree_AB = Ok t'
    /\ (length (timers t') = length (timers tree_AB)
        \/ (creates (@StartLabel ticks "C") = true
            /\ length (timers t') = S (length (timers tree_AB)))).
Proof.
  eexists. split; [reflexivity|].
  apply (@exec_appends_at_most_one ticks 0 20 (StartLabel "C") tree_AB).
  reflexivity.
Defined.

Lemma cursor_is_none_or_a_node_witness :
  currentId tree_AB = -1
  \/ exists n, node_at (timers tree_AB) (currentId tree_AB) = Ok n
               /\ id n = currentId tree_AB.
Proof. exact (cursor_is_none_or_a_node tree_AB tree_AB_reachable). Defined.

Lemma root_stays_the_root_witness :
  exists r, node_at (timers tree_groups) 0 = Ok r
            /\ id r = 0 /\ parent_id r = -1 /\ label r = "total"
            /\ groups r = ["Total"] /\ work_unit_label r = "".
Proof. exact (root_stays_the_root tree_groups tree_groups_reachable). Defined.

Lemma stop_moves_cursor_down_witness :
  exists n,
    node_at (timers tree_root) (currentId tree_root) = Ok n
    /\ @stop_id ticks 9 0 tree_root = Ok (true, stopped_at_cursor 9 n tree_root)
    /\ parent_id n = -1.
Proof.
  destruct (@stop_moves_cursor_down ticks 9 0 "total" tree_root
              tree_root_reachable) as [_ Hstop].
  destruct Hstop as (n & Hn & Hs & _ & _ & Hroot); [discriminate|].
  exists n. split; [exact Hn|]. split; [exact Hs|].
  apply Hroot. reflexivity.
Defined.

Lemma start_id_makes_id_current_witness :
  @start_id ticks 1 0 tree_new = Ok (true, tree_root).
Proof.
  exact (@start_id_makes_id_current ticks 1 0 tree_new (@reachable_new ticks 0)).
Defined.

Lemma no_current_timer_faults_witness :
  getChildId "A" tree_new = Fault
  /\ initializeTimer "A" ["G"] "" tree_new = Fault
  /\ @start_label ticks 1 "A" tree_new = Fault.
Proof.
  assert (Hc : currentId tree_new < 0) by (simpl; lia).
  exact (@no_current_timer_faults ticks 1 "A" ["G"] "" tree_new Hc).
Defined.

Lemma sibling_labels_are_distinct_witness : (3 : Z) = 3.
Proof.
  assert (H3 : (3 : Z) ∈ [2; 3]) by (right; left).
  apply (sibling_labels_are_distinct tree_groups 1 _ _ _ 3 3
           tree_groups_reachable eq_refl H3 H3 eq_refl eq_refl eq_refl).
Defined.

Lemma children_and_parents_agree_witness :
  exists n m, timers tree_groups !! 1%nat = Some n
    /\ timers tree_groups !! 2%nat = Some m
    /\ 0 <= parent_id m < 2
    /\ (2 ∈ child_ids n <-> parent_id m = 1).
Proof.
  eexists _, _. split; [reflexivity|]. split; [reflexivity|].
  assert (Hne : 2%nat <> 0%nat) by lia.
  exact (children_and_parents_agree tree_groups 1 2 _ _
           tree_groups_reachable eq_refl eq_refl Hne).
Defined.

Lemma getChildId_finds_the_child_witness :
  exists cur r,
    node_at (timers tree_AB) (currentId tree_AB) = Ok cur
    /\ getChildId "A" tree_AB = Ok r
    /\ ((r = -1
         /\ forall c m, c ∈ child_ids cur ->
              node_at (timers tree_AB) c = Ok m -> label m <> "A")
        \/ (r ∈ child_ids cur
            /\ (exists m, node_at (timers tree_AB) r = Ok m /\ label m = "A"
                          /\ parent_id m = currentId tree_AB)
            /\ forall c m, c ∈ child_ids cur ->
                 node_at (timers tree_AB) c = Ok m -> label m = "A" -> c = r)).
Proof.
  assert (Hc : currentId tree_AB <> -1) by discriminate.
  exact (getChildId_finds_the_child "A" tree_AB tree_AB_reachable Hc).
Defined.

Lemma initializeTimer_returns_a_child_witness :
  exists i t1,
    initializeTimer "C" ["G"] "cells" tree_AB = Ok (i, t1)
    /\ currentId tree_AB < i
    /\ currentId t1 = currentId tree_AB.
Proof.
  assert (Hc : currentId tree_AB <> -1) by discriminate.
  assert (Hcap : Z.of_nat (length (timers tree_AB)) <= INT_MAX)
    by (unfold INT_MAX; simpl; lia).
  destruct (initializeTimer_returns_a_child "C" ["G"] "cells" tree_AB
              tree_AB_reachable Hc Hcap)
    as (i & t1 & Hi & Hlt & Hcur & _).
  exists i, t1. split; [exact Hi|]. split; assumption.
Defined.

Lemma start_label_enters_the_child_witness :
  exists t', @start_label ticks 20 "A" tree_AB = Ok (true, t')
    /\ 0 <= currentId tree_AB < currentId t'.
Proof.
  eexists. split; [reflexivity|].
  apply (@start_label_enters_the_child ticks 20 "A" tree_AB _ true
           tree_AB_reachable eq_refl).
Defined.

Lemma getHash_returns_in_int_range_witness :
  exists r, getHash 0 tree_AB = Ok r /\ 0 <= r < INT_MAX.
Proof.
  exact (getHash_returns_in_int_range 0 tree_AB _ tree_AB_reachable eq_refl).
Defined.

Lemma getHash_unchanged_by_timing_calls_witness :
  exists t', @exec ticks 0 20 (StartId 2) tree_AB = Ok t'
    /\ getHash 1 t' = getHash 1 tree_AB.
Proof.
  eexists. split; [reflexivity|].
  apply (@getHash_unchanged_by_timing_calls ticks poly 0 20 (StartId 2) 1
           tree_AB _ eq_refl eq_refl).
Defined.

Lemma getFullLabel_extends_the_parent_witness :
  exists forward reverse,
    getFullLabel 3 1 false tree_AB = Ok forward
    /\ getFullLabel 3 1 true tree_AB = Ok reverse
    /\ getFullLabel 3 2 false tree_AB
       = Ok (String.append (String.append forward "/") "B")
    /\ getFullLabel 3 2 true tree_AB
       = Ok (String.append (String.append "B" backslash) reverse).
Proof.
  assert (Hpos : 0 < 2) by lia.
  assert (Hfuel : (length (timers tree_AB) <= 3)%nat) by (simpl; lia).
  exact (getFullLabel_extends_the_parent 3 2 tree_AB _
           tree_AB_reachable eq_refl Hpos Hfuel).
Defined.

Lemma getFullLabel_is_stable_witness :
  exists t', @exec ticks 0 20 (StartLabel "C") tree_AB = Ok t'
    /\ getFullLabel 3 2 false t' = getFullLabel 3 2 false tree_AB.
Proof.
  eexists. split; [reflexivity|].
  assert (Hi : 2 < Z.of_nat (length (timers tree_AB))) by (simpl; lia).
  exact (@getFullLabel_is_stable ticks 3 0 20 (StartLabel "C") 2 false
           tree_AB _ tree_AB_reachable eq_refl Hi).
Defined.

Lemma getGroupTime_Total_is_getTime_of_root_witness :
  exists r, node_at (timers tree_groups) 0 = Ok r
    /\ getTime 0 tree_groups = Ok (TimerData_getAverageTime r)
    /\ getGroupTime 1 "Total" 0 tree_groups
       = Ok (TimerData_getAverageTime r).
Proof.
  exact (getGroupTime_Total_is_getTime_of_root 0 tree_groups
           tree_groups_reachable).
Defined.

Lemma start_label_is_initialize_then_start_id_witness :
  exists t1,
    initializeTimer "A" [] "" tree_AB = Ok (1, t1)
    /\ @start_label ticks 20 "A" tree_AB = @start_id ticks 20 1 t1.
Proof.
  eexists. split; [reflexivity|].
  apply (@start_label_is_initialize_then_start_id ticks 20 "A" tree_AB _ 1
           tree_AB_reachable eq_refl).
Defined.

End Evaluation.
